(** * mapnik-terrarium: the terrarium hillshade featureset

    A shallow embedding of [src/terrarium_featureset.ipp].

    Conventions of the embedding.
    - [uint8_t] and [uint32_t] values are integers of [Z]; every narrowing
      conversion is written out as a reduction modulo [2^8] or [2^32].
    - a [double] is a real number of [R]: the arithmetic of the source is read
      exactly.  The decoded heights, their differences and the sum of squares
      under the square root are integers below [2^53], which binary64 holds
      exactly; everything after the square root is read without rounding.
    - [(uint8_t) x] on a [double] truncates toward zero ([Ztrunc]) and the
      result is reduced modulo 256.
    - a read outside the pixel buffer has no defined result: [None].
    - a C++ exception is a value of [exn]; [try]/[catch] is a function on
      outcomes. *)

From Stdlib Require Import ZArith List Bool Lia Lra Reals Zfloor.
From Stdlib Require Floats.
From Stdlib Require Import String.
Import ListNotations.

Local Open Scope Z_scope.

(** ** Machine integers *)

Module Bits.

Definition wrap8 (z : Z) : Z := z mod 256.
Definition wrap32 (z : Z) : Z := z mod 4294967296.

Definition is_uint8 (z : Z) : Prop := 0 <= z < 256.
Definition is_uint32 (z : Z) : Prop := 0 <= z < 4294967296.

End Bits.
Import Bits.

(** ** mapnik::color (the part of the library class the source uses) *)

Record color : Type := mk_color_rgba {
  red : Z;
  green : Z;
  blue : Z;
  alpha : Z
}.

(** [mapnik::color{r,g,b}]: the constructor's alpha defaults to [0xff]. *)
Definition mk_color (r g b : Z) : color := mk_color_rgba r g b 255.

(** [c.set_alpha(a)], the argument already converted to [uint8_t]. *)
Definition set_alpha (c : color) (a : Z) : color :=
  mk_color_rgba (red c) (green c) (blue c) a.

Definition color_ok (c : color) : Prop :=
  is_uint8 (red c) /\ is_uint8 (green c) /\ is_uint8 (blue c) /\ is_uint8 (alpha c).

(** ** Pixel packing and height decoding *)

(** [double height_val(uint32_t pixel)].  The three channels are [uint8_t],
    promoted to [int] in the return expression, so [blue / 256] is the integer
    quotient; the [int] result is then converted to [double]. *)
Definition height_int (pixel : Z) : Z :=
  let red := wrap8 (Z.land pixel 255) in
  let green := wrap8 (Z.land (Z.shiftr pixel 8) 255) in
  let blue := wrap8 (Z.land (Z.shiftr pixel 16) 255) in
  (red * 256 + green + Z.quot blue 256) - 32768.

Definition height_val (pixel : Z) : R := IZR (height_int pixel).

(** [uint32_t pxl_from_rgba(uint8_t r, uint8_t g, uint8_t b, uint8_t a)]. *)
Definition pxl_from_rgba (r g b a : Z) : Z :=
  let val := wrap32 (Z.shiftl a 24) in
  let val := Z.lor val (wrap32 (Z.shiftl b 16)) in
  let val := Z.lor val (wrap32 (Z.shiftl g 8)) in
  let val := Z.lor val (wrap32 r) in
  val.

(** [uint32_t bytes(mapnik::color c)]. *)
Definition bytes (c : color) : Z :=
  let val := wrap32 (Z.shiftl (alpha c) 24) in
  let val := Z.lor val (wrap32 (Z.shiftl (blue c) 16)) in
  let val := Z.lor val (wrap32 (Z.shiftl (green c) 8)) in
  let val := Z.lor val (wrap32 (red c)) in
  val.

(** [mapnik::color blend(mapnik::color color1, mapnik::color color2)]: each
    sum is computed in [int] and narrowed to [uint8_t]. *)
Definition blend (color1 color2 : color) : color :=
  let red := wrap8 (red color1 + red color2) in
  let green := wrap8 (green color1 + green color2) in
  let blue := wrap8 (blue color1 + blue color2) in
  mk_color red green blue.

(** The terrarium formula as the format states it, over the reals. *)
Definition terrarium_height (r g b : Z) : R :=
  (IZR r * 256 + IZR g + IZR b / 256 - 32768)%R.

(** ** mapnik::image_rgba8 (the part of the library class the source uses)

    One contiguous buffer of [width * height] packed pixels, row after row. *)

Record image_rgba8 : Type := mk_image {
  width : Z;
  height : Z;
  data : list Z
}.

(** [image_rgba8 output(w,h)]: a zero-filled image. *)
Definition new_image (w h : Z) : image_rgba8 :=
  mk_image w h (repeat 0 (Z.to_nat (w * h))).

(** [img.get_row(row)]: the position of the row's first pixel in the buffer. *)
Definition get_row (img : image_rgba8) (row : Z) : Z := row * width img.

(** Reading the buffer at a position; positions outside it have no value. *)
Definition load (img : image_rgba8) (pos : Z) : option Z :=
  if 0 <=? pos then nth_error (data img) (Z.to_nat pos) else None.

(** [img.set_row(row, buf, size)]: copies [buf] over the row. *)
Definition set_row (img : image_rgba8) (row : Z) (buf : list Z) : option image_rgba8 :=
  let pos := get_row img row in
  if (0 <=? pos) && (pos + Z.of_nat (List.length buf) <=? Z.of_nat (List.length (data img))) then
    Some (mk_image (width img) (height img)
            (firstn (Z.to_nat pos) (data img) ++ buf
             ++ skipn (Z.to_nat pos + List.length buf) (data img)))
  else None.

(** The input tile the featureset asks its reader for. *)
Definition tile516 (img : image_rgba8) : Prop :=
  width img = 516 /\ height img = 516 /\ List.length (data img) = Z.to_nat (516 * 516).

(** [double get_height(image_rgba8 const& input, int32_t row, int32_t col)]. *)
Definition get_height (input : image_rgba8) (row col : Z) : option R :=
  option_map height_val (load input (get_row input (row + 2) + (col + 2))).

(** ** Conversions and library functions on [double] *)

Local Open Scope R_scope.

(** Truncation toward zero, the value of a [double] to integer conversion. *)
Definition Ztrunc (x : R) : Z := if Rlt_dec x 0 then Zceil x else Zfloor x.

(** [(uint8_t) x]. *)
Definition to_uint8 (x : R) : Z := wrap8 (Ztrunc x).

(** [atan2(y, x)] of the C library.  Both arguments at the call site are
    negations [-d] of a difference of two finite heights; when the difference
    is zero it is the positive zero, so a zero argument is always the negative
    zero, for which the C library gives [atan2(-0, x) = -pi] when [x < 0] and
    [atan2(-0, -0) = -pi]. *)
Definition atan2 (y x : R) : R :=
  if Rlt_dec 0 x then atan (y / x)
  else if Rlt_dec x 0 then
    (if Rlt_dec 0 y then atan (y / x) + PI else atan (y / x) - PI)
  else
    (if Rlt_dec 0 y then PI / 2 else if Rlt_dec y 0 then - PI / 2 else - PI).

(** ** The hillshade of one pixel: the body of the inner loop of
    [process_hillshade], with the values of its local variables. *)

Record locals : Type := mk_locals {
  l_hgt : R;
  l_dzdx : R;
  l_dzdy : R;
  l_slope : R;
  l_aspect : R;
  l_lum1_raw : R;       (* luminance1 as first assigned *)
  l_luminance1 : R;     (* luminance1 when color1 is built *)
  l_color1 : color;
  l_lum2_raw : R;
  l_luminance2 : R;
  l_color2 : color;
  l_alpha : R;
  l_color3 : color;
  l_buf : Z             (* the value stored in buf[col] *)
}.

Definition bind {A B : Type} (o : option A) (f : A -> option B) : option B :=
  match o with Some a => f a | None => None end.

Notation "x <- o ;; k" := (bind o (fun x => k))
  (at level 61, o at next level, right associativity).

(** The body after its five reads of the input. *)
Definition hillshade_locals (hgt east west south north : R) : locals :=
  let dzdx := east - west in
  let dzdy := south - north in
  let slope := atan (0.2 * sqrt (pow dzdx 2 + pow dzdy 2)) in
  let aspect := atan2 (- dzdy) (- dzdx) in

  let azimuth1 := 315 in
  let elevation1 := 45 in
  let elev1 := elevation1 * PI / 180 in
  let lum1_raw :=
    cos (PI * 0.5 - aspect - (azimuth1 - 90) * PI / 180) * sin slope * sin (PI * 0.5 - elev1)
    + cos slope * cos (PI * 0.5 - elev1) in
  let luminance1 := if Rlt_dec lum1_raw 0 then 0 else lum1_raw in
  let luminance1 := sqrt (luminance1 * 0.8 + 0.2) in
  let luminance1 := luminance1 * 255 in
  let color1 := mk_color (to_uint8 luminance1) (to_uint8 (luminance1 / 2)) 0 in

  let azimuth2 := 225 in
  let elevation2 := 45 in
  let elev2 := elevation2 * PI / 180 in
  let lum2_raw :=
    cos (PI * 0.5 - aspect - (azimuth2 - 90) * PI / 180) * sin slope * sin (PI * 0.5 - elev2)
    + cos slope * cos (PI * 0.5 - elev2) in
  let luminance2 := if Rlt_dec lum2_raw 0 then 0 else lum2_raw in
  let luminance2 := sqrt (luminance2 * 0.8 + 0.2) in
  let luminance2 := luminance2 * 255 in
  let color2 := mk_color 0 (to_uint8 (luminance2 / 2)) (to_uint8 luminance2) in
  let color3 := blend color1 color2 in

  let alpha := (hgt - 20) / 100 * 255 in
  let alpha := if Rlt_dec 255 alpha then 255 else alpha in
  let alpha := if Rlt_dec alpha 0 then 0 else alpha in
  let color3 := set_alpha color3 (to_uint8 alpha) in
  mk_locals hgt dzdx dzdy slope aspect lum1_raw luminance1 color1
    lum2_raw luminance2 color2 alpha color3 (bytes color3).

(** The body with its reads: [get_height] at the pixel and at its four
    neighbours. *)
Definition hillshade_px (input : image_rgba8) (row col : Z) : option locals :=
  hgt <- get_height input row col ;;
  east <- get_height input row (col + 1) ;;
  west <- get_height input row (col - 1) ;;
  south <- get_height input (row + 1) col ;;
  north <- get_height input (row - 1) col ;;
  Some (hillshade_locals hgt east west south north).

(** ** The two loops of [process_hillshade] *)

Local Open Scope Z_scope.

(** [for (int32_t i = from; ...; i++)] run for [n] rounds over a state. *)
Fixpoint for_loop {S : Type} (n : nat) (i : Z) (body : Z -> S -> option S) (s : S)
  : option S :=
  match n with
  | O => Some s
  | Datatypes.S n' =>
      match body i s with
      | Some s' => for_loop n' (i + 1) body s'
      | None => None
      end
  end.

(** The inner loop: [buf] is filled from column 0 to column 511. *)
Definition hillshade_row (input : image_rgba8) (row : Z) : option (list Z) :=
  for_loop 512 0
    (fun col buf => px <- hillshade_px input row col ;; Some (buf ++ [l_buf px]))
    [].

(** [void process_hillshade(image_rgba8 const& input, image_rgba8 &output)]. *)
Definition process_hillshade (input output : image_rgba8) : option image_rgba8 :=
  for_loop 512 0
    (fun row output => buf <- hillshade_row input row ;; set_row output row buf)
    output.

(** ** [process_heightmap], the blue ramp the source keeps beside the hillshade *)

(** The body of its inner loop after the read of [hgt]: the packed pixel
    stored in [buf[col]]. *)
Definition heightmap_value (hgt : R) : Z :=
  let frac := (hgt / 1000)%R in
  let frac := if Rlt_dec frac 0 then 0%R else frac in
  let frac := if Rlt_dec 1 frac then 1%R else frac in
  let frac := (frac * 255)%R in
  let v := to_uint8 frac in
  pxl_from_rgba 0 0 255 v.

Definition heightmap_row (input : image_rgba8) (row : Z) : option (list Z) :=
  for_loop 512 0
    (fun col buf => hgt <- get_height input row col ;; Some (buf ++ [heightmap_value hgt]))
    [].

(** [void process_heightmap(image_rgba8 const& input, image_rgba8 &output)]. *)
Definition process_heightmap (input output : image_rgba8) : option image_rgba8 :=
  for_loop 512 0
    (fun row output => buf <- heightmap_row input row ;; set_row output row buf)
    output.

(** The output image has 512 rows of 512 pixels. *)
Definition image512 (img : image_rgba8) : Prop :=
  width img = 512 /\ height img = 512 /\ Z.of_nat (List.length (data img)) = 262144.

(** ** Exceptions *)

(** The exceptions the body of [next] can meet, by the [catch] clause that
    takes them: [mapnik::image_reader_exception] (a [std::exception]), another
    [std::exception], anything else. *)
Inductive exn : Type :=
| image_reader_exception (what : String.string)
| std_exception (what : String.string)
| other_exception.

(** A computation returns, throws, or has no defined behaviour. *)
Inductive outcome (A : Type) : Type :=
| Val (a : A)
| Raise (e : exn)
| Undefined.
Arguments Val {A} a.
Arguments Raise {A} e.
Arguments Undefined {A}.

Definition obind {A B : Type} (o : outcome A) (f : A -> outcome B) : outcome B :=
  match o with
  | Val a => f a
  | Raise e => Raise e
  | Undefined => Undefined
  end.

Definition of_option {A : Type} (o : option A) : outcome A :=
  match o with Some a => Val a | None => Undefined end.

(** One [catch] clause: the log line it writes when it takes the exception. *)
Definition handler : Type := exn -> option String.string.

(** [try { body } catch ...]: the first clause that takes the exception runs;
    an exception no clause takes leaves the block. *)
Fixpoint catch_with (hs : list handler) (e : exn) : option String.string :=
  match hs with
  | [] => None
  | h :: hs' => match h e with Some msg => Some msg | None => catch_with hs' e end
  end.

Definition try_catch {A : Type} (body : outcome A) (hs : list handler)
  : outcome (option A * list String.string) :=
  match body with
  | Val a => Val (Some a, [])
  | Raise e =>
      match catch_with hs e with
      | Some msg => Val (None, [msg])
      | None => Raise e
      end
  | Undefined => Undefined
  end.

(** ** mapnik::image_any, raster, feature *)

(** [mapnik::image_any]: a variant; only the rgba8 alternative matters. *)
Inductive image_any : Type :=
| any_rgba8 (img : image_rgba8)
| any_other.

(** [input.get<image_rgba8>()]: throws (a [std::runtime_error]) when the
    variant holds another alternative. *)
Definition get_rgba8 (input : image_any) : outcome image_rgba8 :=
  match input with
  | any_rgba8 img => Val img
  | any_other => Raise (std_exception "in get<T>()"%string)
  end.

Record box2d : Type := mk_box { minx : R; miny : R; maxx : R; maxy : R }.

Record raster : Type := mk_raster {
  ext_ : box2d;
  query_ext_ : box2d;
  data_ : image_rgba8;
  filter_factor_r : R
}.

Record feature_impl : Type := mk_feature {
  id_ : Z;
  raster_ : option raster
}.

(** [feature_ptr]: a shared pointer, [None] when empty. *)
Definition feature_ptr : Type := option feature_impl.

Definition set_raster (f : feature_impl) (r : raster) : feature_impl :=
  mk_feature (id_ f) (Some r).

(** ** terrarium_featureset *)

Record terrarium_featureset : Type := mk_featureset {
  feature_id_ : Z;
  extent_ : box2d;
  bbox_ : box2d;
  filter_factor_ : R;
  done : bool
}.

(** Modelled from the spec: the initial value of the member [done], which is
    declared in [terrarium_featureset.hpp] and not set by the constructor's
    initializer list; the producer starts in state Ready, "no result yet
    produced". *)
Definition done_initial : bool := false.

(** The constructor: [feature_id_(1)], the extents and the filter factor. *)
Definition new_featureset (extent q_bbox : box2d) (q_filter_factor : R)
  : terrarium_featureset :=
  mk_featureset 1 extent q_bbox q_filter_factor done_initial.

(** What [image_reader_->read(0, 0, 516, 516)] does on one call: it returns
    an image or throws. *)
Definition read_result : Type := outcome image_any.

(** The reader's contract for [read(0, 0, 516, 516)]: a returned rgba8 image
    has the size asked for, and the reader itself has defined behaviour. *)
Definition reader_contract (rd : read_result) : Prop :=
  match rd with
  | Val (any_rgba8 img) => tile516 img
  | Val any_other => True
  | Raise _ => True
  | Undefined => False
  end.

(** The read fails (the reader throws) or the decode fails (the image read
    is not an rgba8 image, and [get] throws). *)
Definition read_or_decode_fails (rd : read_result) : Prop :=
  match rd with
  | Raise _ => True
  | Val any_other => True
  | Val (any_rgba8 _) => False
  | Undefined => False
  end.

(** The three [catch] clauses of [next], in order. *)
Definition catch_image_reader_exception : handler := fun e =>
  match e with
  | image_reader_exception what =>
      Some (String.append "Terrarium: image reader exception caught: " what)
  | _ => None
  end.

Definition catch_std_exception : handler := fun e =>
  match e with
  | image_reader_exception what | std_exception what =>
      Some (String.append "Terrarium: " what)
  | other_exception => None
  end.

Definition catch_ellipsis : handler := fun _ =>
  Some "Terrarium: exception caught"%string.

Definition next_handlers : list handler :=
  [catch_image_reader_exception; catch_std_exception; catch_ellipsis].

(** The body of the [try] block of [next]. *)
Definition next_try (fs : terrarium_featureset) (feature : feature_impl)
    (rd : read_result) : outcome feature_impl :=
  obind rd (fun input =>
  let output := new_image 512 512 in
  obind (get_rgba8 input) (fun input_img =>
  obind (of_option (process_hillshade input_img output)) (fun output =>
  let raster := mk_raster (extent_ fs) (extent_ fs) output (filter_factor_ fs) in
  Val (set_raster feature raster)))).

(** [feature_ptr terrarium_featureset::next()]: the returned pointer, the
    object after the call and the lines logged; [rd] is what the reader does
    if it is called. *)
Definition next (fs : terrarium_featureset) (rd : read_result)
  : outcome (feature_ptr * terrarium_featureset * list String.string) :=
  if done fs then Val (None, fs, [])
  else
    let feature := mk_feature (feature_id_ fs) None in
    let fs := mk_featureset (feature_id_ fs + 1) (extent_ fs) (bbox_ fs)
                (filter_factor_ fs) (done fs) in
    obind (try_catch (next_try fs feature rd) next_handlers) (fun r =>
    let feature := match fst r with Some f => f | None => feature end in
    let fs := mk_featureset (feature_id_ fs) (extent_ fs) (bbox_ fs)
                (filter_factor_ fs) true in
    Val (Some feature, fs, snd r)).

(** A consumer calling [next] again and again; [rds] gives the reader's
    behaviour at each call.  The run stops at the first call that does not
    return. *)
Fixpoint calls (fs : terrarium_featureset) (rds : list read_result)
  : outcome (list feature_ptr * terrarium_featureset) :=
  match rds with
  | [] => Val ([], fs)
  | rd :: rds' =>
      obind (next fs rd) (fun r =>
      obind (calls (snd (fst r)) rds') (fun rest =>
      Val (fst (fst r) :: fst rest, snd rest)))
  end.

(** ** The design's formulas, in its own words *)

Module Design.

Local Open Scope R_scope.

(** The pixel at a storage coordinate of the tile. *)
Definition pixel_at (tile : image_rgba8) (r c : Z) : option Z :=
  if ((0 <=? r) && (r <? height tile) && (0 <=? c) && (c <? width tile))%Z
  then nth_error (data tile) (Z.to_nat (r * width tile + c))
  else None.

(** [heightAt(r, c)] decodes the pixel stored at [(r+2, c+2)]. *)
Definition heightAt (tile : image_rgba8) (r c : Z) : option R :=
  option_map height_val (pixel_at tile (r + 2) (c + 2))%Z.

Definition slope_of (dzdx dzdy : R) : R := atan (0.2 * sqrt (dzdx * dzdx + dzdy * dzdy)).

Definition aspect_of (dzdx dzdy : R) : R := atan2 (- dzdy) (- dzdx).

(** The response of a light at [(azimuth, elevation)] degrees. *)
Definition light (azimuth elevation slope aspect : R) : R :=
  let elevRad := elevation * PI / 180 in
  cos (PI / 2 - aspect - (azimuth - 90) * PI / 180) * sin slope * sin (PI / 2 - elevRad)
  + cos slope * cos (PI / 2 - elevRad).

Definition gamma_lift (luminance : R) : R := sqrt (Rmax luminance 0 * 0.8 + 0.2) * 255.

Definition clamp (x lo hi : R) : R := Rmax lo (Rmin x hi).

Definition alpha_of (hgt : R) : R := clamp ((hgt - 20) / 100 * 255) 0 255.

End Design.

(** ** The alpha ramp in binary64

    The ramp uses only operations that IEEE 754 fixes ([-], [/], [*], the
    comparisons and the conversions), so it can be run on the machine's
    doubles and compared with its exact reading. *)

Module Binary64.

Import Floats.
Local Close Scope float_scope.

(** [int] to [double]; exact below [2^53]. *)
Definition of_int (z : Z) : float :=
  if (z <? 0)%Z then PrimFloat.opp (PrimFloat.of_uint63 (Uint63.of_Z (- z)))
  else PrimFloat.of_uint63 (Uint63.of_Z z).

(** [double] to integer: truncation toward zero, 0 when not finite. *)
Definition trunc (x : float) : Z :=
  match Prim2SF x with
  | S754_finite s m e =>
      let v := (if 0 <=? e then Z.pos m * 2 ^ e else Z.pos m / 2 ^ (- e))%Z in
      if s then (- v)%Z else v
  | _ => 0%Z
  end.

(** The alpha channel of a pixel of integer height [hgt], as the loop body
    computes it. *)
Definition alpha_channel (hgt : Z) : Z :=
  let hgt := of_int hgt in
  let alpha := ((hgt - 20) / 100 * 255)%float in
  let alpha := if (255 <? alpha)%float then 255%float else alpha in
  let alpha := if (alpha <? 0)%float then 0%float else alpha in
  wrap8 (trunc alpha).

(** The [n] integers from [z] on. *)
Fixpoint range (n : nat) (z : Z) : list Z :=
  match n with
  | O => []
  | Datatypes.S n' => z :: range n' (z + 1)
  end.

(** The heights a pixel can decode to: [-32768 .. 32767]. *)
Definition all_heights : list Z := range (Z.to_nat 65536) (-32768).

(** The alpha byte [v] of [process_heightmap] at integer height [hgt]. *)
Definition heightmap_alpha (hgt : Z) : Z :=
  let hgt := of_int hgt in
  let frac := (hgt / 1000)%float in
  let frac := if (frac <? 0)%float then 0%float else frac in
  let frac := if (1 <? frac)%float then 1%float else frac in
  let frac := (frac * 255)%float in
  wrap8 (trunc frac).

End Binary64.

(** ** Tiles used as examples *)

(** A tile all of whose pixels, margin included, are the same. *)
Definition flat_tile (pixel : Z) : image_rgba8 :=
  mk_image 516 516 (repeat pixel (Z.to_nat (516 * 516))).

(** Every pixel of the tile decodes to the height [h]. *)
Definition flat_terrain (tile : image_rgba8) (h : R) : Prop :=
  forall pos p, load tile pos = Some p -> height_val p = h.

(** Two tiles agree on the heights of the storage coordinates the stencil
    can reach, rows and columns 1 to 514. *)
Definition same_reachable_heights (tile1 tile2 : image_rgba8) : Prop :=
  forall r c, (1 <= r <= 514)%Z -> (1 <= c <= 514)%Z ->
    option_map height_int (Design.pixel_at tile1 r c)
    = option_map height_int (Design.pixel_at tile2 r c).

(** A tile of zero pixels whose first pixel, a corner of the margin, is
    marked. *)
Definition marked_tile : image_rgba8 :=
  mk_image 516 516 (4294967295 :: repeat 0 (Z.to_nat (516 * 516 - 1))).

(** An extent used in examples. *)
Definition world : box2d := mk_box (-180) (-90) 180 90.

(** * Machine integers and pixel packing *)

Local Open Scope Z_scope.

Lemma wrap8_range z : is_uint8 (wrap8 z).
Proof. unfold is_uint8, wrap8. apply Z.mod_pos_bound. lia. Qed.

Lemma wrap8_id z : is_uint8 z -> wrap8 z = z.
Proof. unfold is_uint8, wrap8. intros H. apply Z.mod_small. exact H. Qed.

Lemma land_ff z : Z.land z 255 = z mod 256.
Proof. change 255 with (Z.ones 8). rewrite Z.land_ones by lia. reflexivity. Qed.

(** Or-ing a multiple of [2^n] with a value below [2^n] adds them. *)
Lemma lor_low hi lo n :
  0 <= n -> 0 <= lo < 2 ^ n -> Z.lor (hi * 2 ^ n) lo = hi * 2 ^ n + lo.
Proof.
  intros Hn Hlo.
  assert (Hdisj : Z.land (hi * 2 ^ n) lo = 0).
  { apply Z.bits_inj'. intros m Hm.
    rewrite Z.land_spec, Z.bits_0.
    destruct (Z.ltb_spec m n) as [Hlt | Hge].
    - rewrite Z.mul_pow2_bits_low by exact Hlt. reflexivity.
    - replace lo with (lo mod 2 ^ n) by (apply Z.mod_small; exact Hlo).
      rewrite Z.mod_pow2_bits_high by lia. apply andb_false_r. }
  rewrite <- (Z.lxor_lor _ _ Hdisj). symmetry.
  apply Z.add_nocarry_lxor. exact Hdisj.
Qed.

(** The packed pixel as a number in base 256. *)
Lemma pack_value r g b a :
  is_uint8 r -> is_uint8 g -> is_uint8 b -> is_uint8 a ->
  Z.lor (Z.lor (Z.lor (wrap32 (Z.shiftl a 24)) (wrap32 (Z.shiftl b 16)))
           (wrap32 (Z.shiftl g 8))) (wrap32 r)
  = r + 256 * g + 65536 * b + 16777216 * a.
Proof.
  unfold is_uint8, wrap32. intros Hr Hg Hb Ha.
  rewrite !Z.shiftl_mul_pow2 by lia.
  rewrite !Z.mod_small by lia.
  rewrite (lor_low a (b * 2 ^ 16) 24) by lia.
  replace (a * 2 ^ 24 + b * 2 ^ 16) with ((a * 256 + b) * 2 ^ 16) by lia.
  rewrite (lor_low _ (g * 2 ^ 8) 16) by lia.
  replace ((a * 256 + b) * 2 ^ 16 + g * 2 ^ 8)
    with (((a * 256 + b) * 256 + g) * 2 ^ 8) by lia.
  rewrite (lor_low _ r 8) by lia.
  lia.
Qed.

Lemma pxl_from_rgba_value r g b a :
  is_uint8 r -> is_uint8 g -> is_uint8 b -> is_uint8 a ->
  pxl_from_rgba r g b a = r + 256 * g + 65536 * b + 16777216 * a.
Proof. intros. unfold pxl_from_rgba. apply pack_value; assumption. Qed.

Lemma bytes_value c :
  color_ok c ->
  bytes c = red c + 256 * green c + 65536 * blue c + 16777216 * alpha c.
Proof. intros (Hr & Hg & Hb & Ha). unfold bytes. apply pack_value; assumption. Qed.

(** The channels read back from a packed pixel by [height_val]. *)
Lemma unpack_channels r g b a :
  is_uint8 r -> is_uint8 g -> is_uint8 b -> is_uint8 a ->
  let pixel := r + 256 * g + 65536 * b + 16777216 * a in
  wrap8 (Z.land pixel 255) = r
  /\ wrap8 (Z.land (Z.shiftr pixel 8) 255) = g
  /\ wrap8 (Z.land (Z.shiftr pixel 16) 255) = b.
Proof.
  intros Hr Hg Hb Ha pixel. unfold is_uint8, wrap8 in *.
  rewrite !land_ff, !Z.shiftr_div_pow2 by lia.
  rewrite !Z.mod_mod by lia.
  change (2 ^ 8) with 256. change (2 ^ 16) with 65536.
  subst pixel. repeat split.
  - symmetry. apply (Z.mod_unique_pos _ _ (g + 256 * b + 65536 * a)); lia.
  - replace (r + 256 * g + 65536 * b + 16777216 * a)
      with (r + (g + 256 * b + 65536 * a) * 256) by lia.
    rewrite Z.div_add by lia. rewrite (Z.div_small r) by lia.
    symmetry. apply (Z.mod_unique_pos _ _ (b + 256 * a)); lia.
  - replace (r + 256 * g + 65536 * b + 16777216 * a)
      with ((r + 256 * g) + (b + 256 * a) * 65536) by lia.
    rewrite Z.div_add by lia. rewrite (Z.div_small (r + 256 * g)) by lia.
    symmetry. apply (Z.mod_unique_pos _ _ a); lia.
Qed.

(** What [height_val] computes from the channels: the blue channel, below
    256, has integer quotient 0 by 256. *)
Lemma height_int_channels r g b a :
  is_uint8 r -> is_uint8 g -> is_uint8 b -> is_uint8 a ->
  height_int (pxl_from_rgba r g b a) = r * 256 + g - 32768.
Proof.
  intros Hr Hg Hb Ha. rewrite pxl_from_rgba_value by assumption.
  unfold height_int.
  destruct (unpack_channels r g b a Hr Hg Hb Ha) as (-> & -> & ->).
  rewrite Z.quot_small by exact Hb. lia.
Qed.

Lemma height_int_range pixel : -32768 <= height_int pixel <= 32767.
Proof.
  unfold height_int.
  pose proof (wrap8_range (Z.land pixel 255)) as H1.
  pose proof (wrap8_range (Z.land (Z.shiftr pixel 8) 255)) as H2.
  pose proof (wrap8_range (Z.land (Z.shiftr pixel 16) 255)) as H3.
  unfold is_uint8 in *.
  rewrite (Z.quot_small _ 256) by exact H3. lia.
Qed.

(** * Height decoding *)

(** On every packed pixel the decoded height is the integer
    [red * 256 + green - 32768]: the blue channel does not enter it. *)
Lemma height_val_ignores_blue r g b a :
  is_uint8 r -> is_uint8 g -> is_uint8 b -> is_uint8 a ->
  height_val (pxl_from_rgba r g b a) = IZR (r * 256 + g - 32768).
Proof.
  intros. unfold height_val. rewrite height_int_channels by assumption. reflexivity.
Qed.

(** C1, at the white pixel: for the pixel with red = green = blue = 255 the
    code returns 32767, while the terrarium formula
    red*256 + green + blue/256 - 32768 gives 32767 + 255/256; the fractional
    contribution of blue is lost by the integer division. *)
Theorem height_val_white_pixel :
  height_val (pxl_from_rgba 255 255 255 255) = 32767%R
  /\ terrarium_height 255 255 255 = (32767 + 255 / 256)%R
  /\ height_val (pxl_from_rgba 255 255 255 255) <> terrarium_height 255 255 255.
Proof.
  assert (H : height_val (pxl_from_rgba 255 255 255 255) = 32767%R).
  { rewrite height_val_ignores_blue by (unfold is_uint8; lia). reflexivity. }
  assert (H' : terrarium_height 255 255 255 = (32767 + 255 / 256)%R).
  { unfold terrarium_height. lra. }
  split; [exact H | split; [exact H' | ]].
  rewrite H, H'. lra.
Qed.

(** The decoder agrees with the terrarium formula exactly when blue is 0. *)
Lemma height_val_terrarium_iff r g b a :
  is_uint8 r -> is_uint8 g -> is_uint8 b -> is_uint8 a ->
  height_val (pxl_from_rgba r g b a) = terrarium_height r g b <-> b = 0.
Proof.
  intros Hr Hg Hb Ha. rewrite height_val_ignores_blue by assumption.
  unfold terrarium_height. rewrite minus_IZR, plus_IZR, mult_IZR.
  split.
  - intros H. assert (Hb0 : IZR b = 0%R) by lra.
    apply eq_IZR. exact Hb0.
  - intros ->. lra.
Qed.

(** * Blending *)

Example blend_wraps_around :
  blend (mk_color 200 130 0) (mk_color 100 130 255) = mk_color 44 4 255.
Proof. reflexivity. Qed.

(** C5: the red, green and blue channels of a blend are the sums of the two
    colours' channels reduced modulo 256, and the colour the pixel loop builds
    from its two tints is such a blend: the sum wraps, it does not saturate. *)
Theorem blend_sum_mod_256 :
  (forall color1 color2 : color,
      red (blend color1 color2) = (red color1 + red color2) mod 256
      /\ green (blend color1 color2) = (green color1 + green color2) mod 256
      /\ blue (blend color1 color2) = (blue color1 + blue color2) mod 256)
  /\ (forall hgt east west south north : R,
        let px := hillshade_locals hgt east west south north in
        red (l_color3 px) = (red (l_color1 px) + red (l_color2 px)) mod 256
        /\ green (l_color3 px) = (green (l_color1 px) + green (l_color2 px)) mod 256
        /\ blue (l_color3 px) = (blue (l_color1 px) + blue (l_color2 px)) mod 256).
Proof.
  split.
  - intros color1 color2. unfold blend, mk_color, wrap8. cbn [red green blue].
    repeat split.
  - intros hgt east west south north px. subst px.
    unfold hillshade_locals.
    cbn [l_color1 l_color2 l_color3 set_alpha blend mk_color red green blue].
    unfold wrap8. repeat split.
Qed.

(** * Reading the tile *)

Lemma load_in_buffer img pos :
  0 <= pos < Z.of_nat (List.length (data img)) -> exists p, load img pos = Some p.
Proof.
  intros Hpos. unfold load.
  destruct (Z.leb_spec 0 pos) as [_ | Hneg]; [| lia].
  destruct (nth_error (data img) (Z.to_nat pos)) as [p |] eqn:E.
  - exists p. reflexivity.
  - apply nth_error_None in E. lia.
Qed.

(** Inside the window [-2 .. 513] the source's read and the design's
    [heightAt] are the same read, and it has a value. *)
Lemma get_height_heightAt input row col :
  tile516 input -> -2 <= row <= 513 -> -2 <= col <= 513 ->
  get_height input row col = Design.heightAt input row col
  /\ exists p, get_height input row col = Some (height_val p).
Proof.
  intros (Hw & Hh & Hlen) Hrow Hcol.
  unfold get_height, Design.heightAt, Design.pixel_at, load, get_row.
  rewrite Hw, Hh.
  destruct (Z.leb_spec 0 ((row + 2) * 516 + (col + 2))) as [_ | Hneg]; [| lia].
  replace ((0 <=? row + 2) && (row + 2 <? 516) && (0 <=? col + 2) && (col + 2 <? 516))
    with true
    by (symmetry; rewrite !andb_true_iff, !Z.leb_le, !Z.ltb_lt; lia).
  split; [reflexivity |].
  destruct (nth_error (data input) (Z.to_nat ((row + 2) * 516 + (col + 2)))) as [p |] eqn:E.
  - exists p. reflexivity.
  - apply nth_error_None in E. lia.
Qed.

(** On a 516 x 516 tile the five reads of an output pixel are inside the
    buffer: the body of the loop runs to its end. *)
Lemma hillshade_px_reads input row col :
  tile516 input -> 0 <= row <= 511 -> 0 <= col <= 511 ->
  exists hgt east west south north,
    Design.heightAt input row col = Some hgt
    /\ Design.heightAt input row (col + 1) = Some east
    /\ Design.heightAt input row (col - 1) = Some west
    /\ Design.heightAt input (row + 1) col = Some south
    /\ Design.heightAt input (row - 1) col = Some north
    /\ hillshade_px input row col = Some (hillshade_locals hgt east west south north).
Proof.
  intros Htile Hrow Hcol.
  destruct (get_height_heightAt input row col Htile) as (E0 & p0 & H0); try lia.
  destruct (get_height_heightAt input row (col + 1) Htile) as (E1 & p1 & H1); try lia.
  destruct (get_height_heightAt input row (col - 1) Htile) as (E2 & p2 & H2); try lia.
  destruct (get_height_heightAt input (row + 1) col Htile) as (E3 & p3 & H3); try lia.
  destruct (get_height_heightAt input (row - 1) col Htile) as (E4 & p4 & H4); try lia.
  exists (height_val p0), (height_val p1), (height_val p2), (height_val p3), (height_val p4).
  rewrite <- E0, <- E1, <- E2, <- E3, <- E4.
  unfold hillshade_px. rewrite H0, H1, H2, H3, H4. cbn [bind].
  repeat (split; [reflexivity |]). reflexivity.
Qed.

Lemma hillshade_px_defined input row col :
  tile516 input -> 0 <= row <= 511 -> 0 <= col <= 511 ->
  exists px, hillshade_px input row col = Some px.
Proof.
  intros Htile Hrow Hcol.
  destruct (hillshade_px_reads input row col Htile Hrow Hcol)
    as (hgt & east & west & south & north & _ & _ & _ & _ & _ & H).
  eexists. exact H.
Qed.

(** A pixel the loop body produces is [hillshade_locals] of five heights. *)
Lemma hillshade_px_inv input row col px :
  hillshade_px input row col = Some px ->
  exists hgt east west south north,
    get_height input row col = Some hgt
    /\ get_height input row (col + 1) = Some east
    /\ get_height input row (col - 1) = Some west
    /\ get_height input (row + 1) col = Some south
    /\ get_height input (row - 1) col = Some north
    /\ px = hillshade_locals hgt east west south north.
Proof.
  unfold hillshade_px. intros H.
  destruct (get_height input row col) as [hgt |]; [| discriminate].
  destruct (get_height input row (col + 1)) as [east |]; [| discriminate].
  destruct (get_height input row (col - 1)) as [west |]; [| discriminate].
  destruct (get_height input (row + 1) col) as [south |]; [| discriminate].
  destruct (get_height input (row - 1) col) as [north |]; [| discriminate].
  cbn [bind] in H. injection H as <-.
  exists hgt, east, west, south, north. repeat (split; [reflexivity |]). reflexivity.
Qed.

(** Every height read from the buffer is an integer in [-32768, 32767]. *)
Lemma get_height_integer input row col h :
  get_height input row col = Some h ->
  exists z, h = IZR z /\ -32768 <= z <= 32767.
Proof.
  unfold get_height. destruct (load input _) as [p |]; [| discriminate].
  cbn [option_map]. intros H. injection H as <-.
  exists (height_int p). split; [reflexivity | apply height_int_range].
Qed.

Lemma flat_tile_516 pixel : tile516 (flat_tile pixel).
Proof.
  unfold tile516, flat_tile. cbn [width height data].
  split; [reflexivity | split; [reflexivity | apply repeat_length]].
Qed.

Lemma flat_tile_flat pixel : flat_terrain (flat_tile pixel) (height_val pixel).
Proof.
  intros pos p. unfold load, flat_tile. cbn [data].
  destruct (0 <=? pos); [| discriminate].
  intros H. apply nth_error_In, repeat_spec in H. subst p. reflexivity.
Qed.

(** * Gradient, slope and aspect *)

Local Open Scope R_scope.

(** C2: on a 516 x 516 tile, at every output coordinate [(row, col)] of
    [0..511] x [0..511] the loop body runs to its end, and its gradient is
    dzdx = heightAt(row, col+1) - heightAt(row, col-1),
    dzdy = heightAt(row+1, col) - heightAt(row-1, col), where heightAt(r, c)
    decodes the pixel stored at (r+2, c+2); its slope is
    atan(0.2 * sqrt(dzdx^2 + dzdy^2)) and its aspect atan2(-dzdy, -dzdx). *)
Theorem gradient_slope_aspect (input : image_rgba8) (row col : Z) :
  tile516 input -> (0 <= row <= 511)%Z -> (0 <= col <= 511)%Z ->
  exists px east west south north,
    hillshade_px input row col = Some px
    /\ Design.heightAt input row (col + 1) = Some east
    /\ Design.heightAt input row (col - 1) = Some west
    /\ Design.heightAt input (row + 1) col = Some south
    /\ Design.heightAt input (row - 1) col = Some north
    /\ l_dzdx px = east - west
    /\ l_dzdy px = south - north
    /\ l_slope px = Design.slope_of (l_dzdx px) (l_dzdy px)
    /\ l_aspect px = Design.aspect_of (l_dzdx px) (l_dzdy px).
Proof.
  intros Htile Hrow Hcol.
  destruct (hillshade_px_reads input row col Htile Hrow Hcol)
    as (hgt & east & west & south & north & _ & He & Hw & Hs & Hn & Hpx).
  exists (hillshade_locals hgt east west south north), east, west, south, north.
  repeat (split; [assumption |]).
  unfold hillshade_locals. cbn [l_dzdx l_dzdy l_slope l_aspect].
  unfold Design.slope_of, Design.aspect_of.
  repeat (split; [reflexivity |]).
  split; [| reflexivity].
  do 3 f_equal. simpl. ring.
Qed.

Lemma gradient_slope_aspect_witness :
  exists px east west south north,
    hillshade_px (flat_tile 0) 0 0 = Some px
    /\ Design.heightAt (flat_tile 0) 0 (0 + 1) = Some east
    /\ Design.heightAt (flat_tile 0) 0 (0 - 1) = Some west
    /\ Design.heightAt (flat_tile 0) (0 + 1) 0 = Some south
    /\ Design.heightAt (flat_tile 0) (0 - 1) 0 = Some north
    /\ l_dzdx px = east - west
    /\ l_dzdy px = south - north
    /\ l_slope px = Design.slope_of (l_dzdx px) (l_dzdy px)
    /\ l_aspect px = Design.aspect_of (l_dzdx px) (l_dzdy px).
Proof.
  apply (gradient_slope_aspect (flat_tile 0) 0 0).
  - apply flat_tile_516.
  - lia.
  - lia.
Defined.

(** * Conversions to [uint8_t] *)

Lemma Ztrunc_nonneg x : 0 <= x -> Ztrunc x = Zfloor x.
Proof.
  intros Hx. unfold Ztrunc. destruct (Rlt_dec x 0) as [Hneg | _]; [lra | reflexivity].
Qed.

(** A value in [[0, 256)] converts without wrapping: the result is its
    integer part. *)
Lemma to_uint8_in_range x :
  0 <= x < 256 -> to_uint8 x = Zfloor x /\ (0 <= Zfloor x <= 255)%Z.
Proof.
  intros [Hlo Hhi].
  assert (Hfl : (0 <= Zfloor x <= 255)%Z).
  { split.
    - apply Zfloor_lub. exact Hlo.
    - assert (H : (Zfloor x < 256)%Z).
      { apply lt_IZR. pose proof (Zfloor_bound x) as [Hb _]. lra. }
      lia. }
  split; [| exact Hfl].
  unfold to_uint8. rewrite Ztrunc_nonneg by exact Hlo.
  apply wrap8_id. unfold is_uint8. lia.
Qed.

Lemma to_uint8_int z : (0 <= z <= 255)%Z -> to_uint8 (IZR z) = z.
Proof.
  intros Hz.
  destruct (to_uint8_in_range (IZR z)) as [-> _].
  - split; [apply IZR_le; lia | apply IZR_lt; lia].
  - apply ZfloorZ.
Qed.

(** * The two lights *)

(** A light's response never exceeds 1: it lies between the cosines of the
    sum and of the difference of the slope and the zenith angle. *)
Lemma light_le_1 azimuth elevation slope aspect :
  Design.light azimuth elevation slope aspect <= 1.
Proof.
  unfold Design.light.
  set (z := PI / 2 - elevation * PI / 180).
  set (c := cos (PI / 2 - aspect - (azimuth - 90) * PI / 180)).
  pose proof (COS_bound (PI / 2 - aspect - (azimuth - 90) * PI / 180)) as Hc.
  fold c in Hc.
  pose proof (COS_bound (slope - z)) as Hm. rewrite cos_minus in Hm.
  pose proof (COS_bound (slope + z)) as Hp. rewrite cos_plus in Hp.
  destruct (Rle_dec 0 (sin slope * sin z)) as [Hs | Hs]; nra.
Qed.

Lemma gamma_lift_bounds luminance :
  luminance <= 1 ->
  sqrt 0.2 * 255 <= Design.gamma_lift luminance <= 255.
Proof.
  intros Hle. unfold Design.gamma_lift.
  assert (H0 : 0 <= Rmax luminance 0) by apply Rmax_r.
  assert (H1 : Rmax luminance 0 <= 1) by (apply Rmax_lub; lra).
  split.
  - apply Rmult_le_compat_r; [lra |].
    apply sqrt_le_1_alt. lra.
  - replace 255 with (sqrt 1 * 255) at 2 by (rewrite sqrt_1; lra).
    apply Rmult_le_compat_r; [lra |].
    apply sqrt_le_1_alt. lra.
Qed.

(** [sqrt(0.2) * 255] is about 114.04. *)
Lemma sqrt_02_255 : 114 < sqrt 0.2 * 255 < 115.
Proof.
  assert (Hlo : 114 / 255 < sqrt 0.2).
  { rewrite <- (sqrt_pow2 (114 / 255)) by lra. apply sqrt_lt_1_alt. lra. }
  assert (Hhi : sqrt 0.2 < 115 / 255).
  { rewrite <- (sqrt_pow2 (115 / 255)) by lra. apply sqrt_lt_1_alt. lra. }
  lra.
Qed.

(** The source's clamp-then-lift of a luminance is the design's
    [gamma_lift]. *)
Lemma source_gamma_lift raw :
  sqrt ((if Rlt_dec raw 0 then 0 else raw) * 0.8 + 0.2) * 255 = Design.gamma_lift raw.
Proof.
  unfold Design.gamma_lift, Rmax.
  destruct (Rlt_dec raw 0) as [Hneg | Hpos]; destruct (Rle_dec raw 0) as [Hle | Hgt];
    try reflexivity; try lra.
  replace raw with 0 by lra. reflexivity.
Qed.

(** The source's luminance expression is the design's [light]. *)
Lemma source_light azimuth elevation slope aspect :
  cos (PI * 0.5 - aspect - (azimuth - 90) * PI / 180) * sin slope
    * sin (PI * 0.5 - elevation * PI / 180)
  + cos slope * cos (PI * 0.5 - elevation * PI / 180)
  = Design.light azimuth elevation slope aspect.
Proof.
  unfold Design.light. replace (PI * 0.5) with (PI / 2) by lra. reflexivity.
Qed.

(** The lifted luminance of a light and its half both fit an 8-bit channel. *)
Lemma lifted_luminance_fits azimuth elevation slope aspect :
  let lum := Design.gamma_lift (Design.light azimuth elevation slope aspect) in
  sqrt 0.2 * 255 <= lum <= 255
  /\ to_uint8 lum = Zfloor lum /\ (114 <= Zfloor lum <= 255)%Z
  /\ to_uint8 (lum / 2) = Zfloor (lum / 2) /\ (57 <= Zfloor (lum / 2) <= 127)%Z.
Proof.
  intros lum.
  pose proof (gamma_lift_bounds _ (light_le_1 azimuth elevation slope aspect)) as Hb.
  fold lum in Hb. pose proof sqrt_02_255 as Hs.
  destruct (to_uint8_in_range lum) as [E1 R1]; [lra |].
  destruct (to_uint8_in_range (lum / 2)) as [E2 R2]; [lra |].
  split; [exact Hb |]. split; [exact E1 |]. split.
  { split; [| lia]. apply Zfloor_lub. lra. }
  split; [exact E2 |]. split.
  - apply Zfloor_lub. lra.
  - assert (H : (Zfloor (lum / 2) < 128)%Z).
    { apply lt_IZR. pose proof (Zfloor_bound (lum / 2)) as [Hf _]. lra. }
    lia.
Qed.

(** The local variables of the two lights, in the design's terms. *)
Lemma hillshade_locals_lights hgt east west south north :
  let px := hillshade_locals hgt east west south north in
  l_lum1_raw px = Design.light 315 45 (l_slope px) (l_aspect px)
  /\ l_luminance1 px = Design.gamma_lift (l_lum1_raw px)
  /\ l_color1 px
     = mk_color (to_uint8 (l_luminance1 px)) (to_uint8 (l_luminance1 px / 2)) 0
  /\ l_lum2_raw px = Design.light 225 45 (l_slope px) (l_aspect px)
  /\ l_luminance2 px = Design.gamma_lift (l_lum2_raw px)
  /\ l_color2 px
     = mk_color 0 (to_uint8 (l_luminance2 px / 2)) (to_uint8 (l_luminance2 px)).
Proof.
  intros px. subst px. unfold hillshade_locals.
  cbn [l_lum1_raw l_luminance1 l_color1 l_lum2_raw l_luminance2 l_color2 l_slope l_aspect].
  rewrite !source_gamma_lift, !source_light.
  repeat (split; [reflexivity |]). reflexivity.
Qed.

(** C3: for every pixel the loop body produces, the response of light A
    (azimuth 315, elevation 45) and of light B (225, 45) is
    cos(pi/2 - aspect - (azimuth - 90) pi/180) sin(slope) sin(pi/2 - elevRad)
    + cos(slope) cos(pi/2 - elevRad); the luminance is that response clamped
    below at 0 and lifted to sqrt(l * 0.8 + 0.2) * 255; the tint of light A is
    (R = luminance_A, G = luminance_A / 2, B = 0) and the tint of light B is
    (R = 0, G = luminance_B / 2, B = luminance_B), each 8-bit channel holding
    the integer part of its value. *)
Theorem two_light_tints (input : image_rgba8) (row col : Z) (px : locals) :
  hillshade_px input row col = Some px ->
  l_lum1_raw px = Design.light 315 45 (l_slope px) (l_aspect px)
  /\ l_luminance1 px = sqrt (Rmax (l_lum1_raw px) 0 * 0.8 + 0.2) * 255
  /\ red (l_color1 px) = Zfloor (l_luminance1 px)
  /\ green (l_color1 px) = Zfloor (l_luminance1 px / 2)
  /\ blue (l_color1 px) = 0%Z
  /\ l_lum2_raw px = Design.light 225 45 (l_slope px) (l_aspect px)
  /\ l_luminance2 px = sqrt (Rmax (l_lum2_raw px) 0 * 0.8 + 0.2) * 255
  /\ red (l_color2 px) = 0%Z
  /\ green (l_color2 px) = Zfloor (l_luminance2 px / 2)
  /\ blue (l_color2 px) = Zfloor (l_luminance2 px).
Proof.
  intros Hpx.
  destruct (hillshade_px_inv _ _ _ _ Hpx)
    as (hgt & east & west & south & north & _ & _ & _ & _ & _ & ->).
  destruct (hillshade_locals_lights hgt east west south north)
    as (R1 & L1 & C1 & R2 & L2 & C2).
  set (px := hillshade_locals hgt east west south north) in *.
  pose proof (lifted_luminance_fits 315 45 (l_slope px) (l_aspect px)) as F1.
  pose proof (lifted_luminance_fits 225 45 (l_slope px) (l_aspect px)) as F2.
  cbv zeta in F1, F2. rewrite <- R1, <- L1 in F1. rewrite <- R2, <- L2 in F2.
  destruct F1 as (_ & E1 & _ & E1h & _). destruct F2 as (_ & E2 & _ & E2h & _).
  rewrite C1, C2. unfold mk_color. cbn [red green blue].
  rewrite E1, E1h, E2, E2h.
  repeat (split; [first [assumption | reflexivity] |]). reflexivity.
Qed.

Lemma two_light_tints_witness :
  exists px,
    hillshade_px (flat_tile 0) 0 0 = Some px
    /\ l_lum1_raw px = Design.light 315 45 (l_slope px) (l_aspect px)
    /\ l_luminance1 px = sqrt (Rmax (l_lum1_raw px) 0 * 0.8 + 0.2) * 255
    /\ red (l_color1 px) = Zfloor (l_luminance1 px)
    /\ green (l_color1 px) = Zfloor (l_luminance1 px / 2)
    /\ blue (l_color1 px) = 0%Z
    /\ l_lum2_raw px = Design.light 225 45 (l_slope px) (l_aspect px)
    /\ l_luminance2 px = sqrt (Rmax (l_lum2_raw px) 0 * 0.8 + 0.2) * 255
    /\ red (l_color2 px) = 0%Z
    /\ green (l_color2 px) = Zfloor (l_luminance2 px / 2)
    /\ blue (l_color2 px) = Zfloor (l_luminance2 px).
Proof.
  destruct (hillshade_px_defined (flat_tile 0) 0 0 (flat_tile_516 0)) as [px Hpx];
    [lia | lia |].
  exists px. split; [exact Hpx |].
  exact (two_light_tints (flat_tile 0) 0 0 px Hpx).
Defined.

(** C9: for every pixel, the response of each light before the lift never
    exceeds 1 and is clamped below at 0, so each lifted luminance lies in
    [sqrt(0.2) * 255, 255]; the conversions of the luminance and of its half
    to 8-bit channels therefore never wrap: each channel is the integer part
    of its value, within 0..255. *)
Theorem luminance_channels_in_range (hgt east west south north : R) :
  let px := hillshade_locals hgt east west south north in
  (l_lum1_raw px <= 1 /\ 0 <= Rmax (l_lum1_raw px) 0 <= 1
   /\ sqrt 0.2 * 255 <= l_luminance1 px <= 255
   /\ to_uint8 (l_luminance1 px) = Ztrunc (l_luminance1 px)
   /\ (0 <= Ztrunc (l_luminance1 px) <= 255)%Z
   /\ to_uint8 (l_luminance1 px / 2) = Ztrunc (l_luminance1 px / 2)
   /\ (0 <= Ztrunc (l_luminance1 px / 2) <= 255)%Z)
  /\ (l_lum2_raw px <= 1 /\ 0 <= Rmax (l_lum2_raw px) 0 <= 1
      /\ sqrt 0.2 * 255 <= l_luminance2 px <= 255
      /\ to_uint8 (l_luminance2 px) = Ztrunc (l_luminance2 px)
      /\ (0 <= Ztrunc (l_luminance2 px) <= 255)%Z
      /\ to_uint8 (l_luminance2 px / 2) = Ztrunc (l_luminance2 px / 2)
      /\ (0 <= Ztrunc (l_luminance2 px / 2) <= 255)%Z).
Proof.
  intros px.
  destruct (hillshade_locals_lights hgt east west south north)
    as (R1 & L1 & _ & R2 & L2 & _).
  fold px in R1, L1, R2, L2.
  pose proof (lifted_luminance_fits 315 45 (l_slope px) (l_aspect px)) as F1.
  pose proof (lifted_luminance_fits 225 45 (l_slope px) (l_aspect px)) as F2.
  cbv zeta in F1, F2. rewrite <- R1, <- L1 in F1. rewrite <- R2, <- L2 in F2.
  pose proof (light_le_1 315 45 (l_slope px) (l_aspect px)) as B1. rewrite <- R1 in B1.
  pose proof (light_le_1 225 45 (l_slope px) (l_aspect px)) as B2. rewrite <- R2 in B2.
  pose proof sqrt_02_255 as Hs.
  destruct F1 as (I1 & E1 & Z1 & E1h & Z1h). destruct F2 as (I2 & E2 & Z2 & E2h & Z2h).
  rewrite !Ztrunc_nonneg by lra.
  split.
  - split; [exact B1 |]. split; [split; [apply Rmax_r | apply Rmax_lub; lra] |].
    split; [exact I1 |]. split; [exact E1 |]. split; [lia |]. split; [exact E1h | lia].
  - split; [exact B2 |]. split; [split; [apply Rmax_r | apply Rmax_lub; lra] |].
    split; [exact I2 |]. split; [exact E2 |]. split; [lia |]. split; [exact E2h | lia].
Qed.

(** * Flat terrain *)

Lemma flat_get_height tile h row col x :
  flat_terrain tile h -> get_height tile row col = Some x -> x = h.
Proof.
  intros Hflat. unfold get_height.
  destruct (load tile _) as [p |] eqn:E; [| discriminate].
  cbn [option_map]. intros H. injection H as <-. exact (Hflat _ _ E).
Qed.

Lemma atan2_zero_zero : atan2 (- 0) (- 0) = - PI.
Proof.
  unfold atan2. rewrite Ropp_0.
  destruct (Rlt_dec 0 0) as [H | _]; [lra |]. reflexivity.
Qed.

Lemma cos_zenith_45 : cos (PI * 0.5 - 45 * PI / 180) = cos (PI / 4).
Proof. f_equal. lra. Qed.

(** [cos(pi/4)] is about 0.7071. *)
Lemma cos_PI4_bounds : 0.706 < cos (PI / 4) < 0.71.
Proof.
  rewrite cos_PI4.
  assert (H2 : 0 < sqrt 2) by (apply sqrt_lt_R0; lra).
  assert (Hlo : 1.41 < sqrt 2).
  { rewrite <- (sqrt_pow2 1.41) by lra. apply sqrt_lt_1_alt. lra. }
  assert (Hhi : sqrt 2 < 1.416).
  { rewrite <- (sqrt_pow2 1.416) by lra. apply sqrt_lt_1_alt. lra. }
  split.
  - apply (Rmult_lt_reg_r (sqrt 2)); [exact H2 |].
    unfold Rdiv. rewrite Rmult_assoc, Rinv_l by lra. lra.
  - apply (Rmult_lt_reg_r (sqrt 2)); [exact H2 |].
    unfold Rdiv. rewrite Rmult_assoc, Rinv_l by lra. lra.
Qed.

(** The luminance of both lights on flat ground, about 223.13. *)
Lemma flat_luminance_bounds : 223 < sqrt (cos (PI / 4) * 0.8 + 0.2) * 255 < 224.
Proof.
  pose proof cos_PI4_bounds as [Hlo Hhi].
  assert (H1 : 223 / 255 < sqrt (cos (PI / 4) * 0.8 + 0.2)).
  { rewrite <- (sqrt_pow2 (223 / 255)) by lra. apply sqrt_lt_1_alt. lra. }
  assert (H2 : sqrt (cos (PI / 4) * 0.8 + 0.2) < 224 / 255).
  { rewrite <- (sqrt_pow2 (224 / 255)) by lra. apply sqrt_lt_1_alt. lra. }
  lra.
Qed.

(** The pixel body when the east and west heights agree and the south and
    north heights agree. *)
Lemma hillshade_locals_level hgt ew sn :
  let px := hillshade_locals hgt ew ew sn sn in
  l_dzdx px = 0 /\ l_dzdy px = 0 /\ l_slope px = 0 /\ l_aspect px = - PI
  /\ l_lum1_raw px = cos (PI / 4) /\ l_lum2_raw px = cos (PI / 4)
  /\ l_luminance1 px = sqrt (cos (PI / 4) * 0.8 + 0.2) * 255
  /\ l_luminance2 px = sqrt (cos (PI / 4) * 0.8 + 0.2) * 255.
Proof.
  intros px. subst px. unfold hillshade_locals.
  cbn [l_dzdx l_dzdy l_slope l_aspect l_lum1_raw l_lum2_raw l_luminance1 l_luminance2].
  replace (ew - ew) with 0 by lra. replace (sn - sn) with 0 by lra.
  replace (0 ^ 2 + 0 ^ 2) with 0 by (simpl; lra).
  rewrite sqrt_0, Rmult_0_r, atan_0, sin_0, cos_0, atan2_zero_zero, cos_zenith_45.
  pose proof cos_PI4_bounds as [Hlo Hhi].
  assert (E : forall c s : R, c * 0 * s + 1 * cos (PI / 4) = cos (PI / 4))
    by (intros; lra).
  rewrite !E.
  destruct (Rlt_dec (cos (PI / 4)) 0) as [Hneg | _]; [lra |].
  repeat (split; [reflexivity |]). reflexivity.
Qed.

(** C4, as stated, fails on the tile whose pixels are all 0 (height -32768):
    the gradient and the slope are 0, but the aspect is not 0 and neither
    luminance is sqrt(0.2) * 255 (about 114): both exceed 223. *)
Lemma flat_luminance_counterexample :
  tile516 (flat_tile 0) /\ flat_terrain (flat_tile 0) (-32768)
  /\ exists px,
       hillshade_px (flat_tile 0) 0 0 = Some px
       /\ l_dzdx px = 0 /\ l_dzdy px = 0 /\ l_slope px = 0
       /\ l_aspect px <> 0
       /\ 223 < l_luminance1 px /\ l_luminance1 px <> sqrt 0.2 * 255
       /\ 223 < l_luminance2 px /\ l_luminance2 px <> sqrt 0.2 * 255.
Proof.
  split; [apply flat_tile_516 |].
  split; [exact (flat_tile_flat 0) |].
  destruct (hillshade_px_defined (flat_tile 0) 0 0 (flat_tile_516 0)) as [px Hpx];
    [lia | lia |].
  exists px. split; [exact Hpx |].
  destruct (hillshade_px_inv _ _ _ _ Hpx)
    as (hgt & east & west & south & north & _ & He & Hw & Hs & Hn & ->).
  rewrite (flat_get_height _ _ _ _ _ (flat_tile_flat 0) He).
  rewrite (flat_get_height _ _ _ _ _ (flat_tile_flat 0) Hw).
  rewrite (flat_get_height _ _ _ _ _ (flat_tile_flat 0) Hs).
  rewrite (flat_get_height _ _ _ _ _ (flat_tile_flat 0) Hn).
  destruct (hillshade_locals_level hgt (height_val 0) (height_val 0))
    as (-> & -> & -> & -> & _ & _ & -> & ->).
  pose proof flat_luminance_bounds as [Hlo _].
  pose proof sqrt_02_255 as [_ Hs02]. pose proof PI_RGT_0 as Hpi.
  repeat (split; [first [reflexivity | lra] |]). lra.
Qed.

(** C4, amended: on a 516 x 516 tile all of whose pixels decode to the same
    height, at every output pixel dzdx = dzdy = 0 and slope = 0; the aspect is
    atan2(-0, -0) = -pi and does not enter the luminance, since sin(slope) = 0;
    the response of both lights is cos(pi/4) and both lifted luminances are
    sqrt(0.8 * cos(pi/4) + 0.2) * 255, between 223 and 224, before tinting. *)
Theorem flat_terrain_shading (input : image_rgba8) (h : R) (row col : Z) :
  tile516 input -> flat_terrain input h ->
  (0 <= row <= 511)%Z -> (0 <= col <= 511)%Z ->
  exists px,
    hillshade_px input row col = Some px
    /\ l_hgt px = h
    /\ l_dzdx px = 0 /\ l_dzdy px = 0 /\ l_slope px = 0 /\ l_aspect px = - PI
    /\ l_lum1_raw px = cos (PI / 4) /\ l_lum2_raw px = cos (PI / 4)
    /\ l_luminance1 px = sqrt (cos (PI / 4) * 0.8 + 0.2) * 255
    /\ l_luminance2 px = sqrt (cos (PI / 4) * 0.8 + 0.2) * 255
    /\ 223 < l_luminance1 px < 224 /\ 223 < l_luminance2 px < 224.
Proof.
  intros Htile Hflat Hrow Hcol.
  destruct (hillshade_px_defined input row col Htile Hrow Hcol) as [px Hpx].
  exists px. split; [exact Hpx |].
  destruct (hillshade_px_inv _ _ _ _ Hpx)
    as (hgt & east & west & south & north & H0 & He & Hw & Hs & Hn & ->).
  rewrite (flat_get_height _ _ _ _ _ Hflat He), (flat_get_height _ _ _ _ _ Hflat Hw).
  rewrite (flat_get_height _ _ _ _ _ Hflat Hs), (flat_get_height _ _ _ _ _ Hflat Hn).
  destruct (hillshade_locals_level hgt h h) as (-> & -> & -> & -> & -> & -> & -> & ->).
  pose proof flat_luminance_bounds as Hb.
  split; [exact (flat_get_height _ _ _ _ _ Hflat H0) |].
  repeat (split; [reflexivity |]). split; exact Hb.
Qed.

Lemma flat_terrain_shading_witness :
  exists px,
    hillshade_px (flat_tile 0) 5 7 = Some px
    /\ l_hgt px = height_val 0
    /\ l_dzdx px = 0 /\ l_dzdy px = 0 /\ l_slope px = 0 /\ l_aspect px = - PI
    /\ l_lum1_raw px = cos (PI / 4) /\ l_lum2_raw px = cos (PI / 4)
    /\ l_luminance1 px = sqrt (cos (PI / 4) * 0.8 + 0.2) * 255
    /\ l_luminance2 px = sqrt (cos (PI / 4) * 0.8 + 0.2) * 255
    /\ 223 < l_luminance1 px < 224 /\ 223 < l_luminance2 px < 224.
Proof.
  apply (flat_terrain_shading (flat_tile 0) (height_val 0) 5 7).
  - apply flat_tile_516.
  - apply flat_tile_flat.
  - lia.
  - lia.
Defined.

(** * Alpha *)

(** The source's two tests are the design's clamp. *)
Lemma source_clamp a :
  (let a1 := if Rlt_dec 255 a then 255 else a in if Rlt_dec a1 0 then 0 else a1)
  = Design.clamp a 0 255.
Proof.
  cbv zeta. unfold Design.clamp, Rmax, Rmin.
  destruct (Rlt_dec 255 a); destruct (Rle_dec a 255); try lra;
    repeat match goal with
           | |- context [Rlt_dec ?x ?y] => destruct (Rlt_dec x y)
           | |- context [Rle_dec ?x ?y] => destruct (Rle_dec x y)
           end; lra.
Qed.

Lemma clamp_range x : 0 <= Design.clamp x 0 255 <= 255.
Proof.
  unfold Design.clamp. split.
  - apply Rmax_l.
  - apply Rmax_lub; [lra | apply Rmin_r].
Qed.

(** The alpha of the pixel body: the clamped ramp, and its integer part in
    the 8-bit channel. *)
Lemma hillshade_locals_alpha hgt east west south north :
  let px := hillshade_locals hgt east west south north in
  l_hgt px = hgt
  /\ l_alpha px = Design.alpha_of hgt
  /\ alpha (l_color3 px) = Zfloor (Design.alpha_of hgt).
Proof.
  intros px. subst px. unfold hillshade_locals.
  cbn [l_hgt l_alpha l_color3 set_alpha alpha].
  pose proof (source_clamp ((hgt - 20) / 100 * 255)) as E. cbv zeta in E.
  rewrite E. fold (Design.alpha_of hgt).
  split; [reflexivity |]. split; [reflexivity |].
  pose proof (clamp_range ((hgt - 20) / 100 * 255)) as Hr.
  fold (Design.alpha_of hgt) in Hr.
  destruct (to_uint8_in_range (Design.alpha_of hgt)) as [-> _]; [lra | reflexivity].
Qed.

(** The alpha channel at an integer height, in integer arithmetic. *)
Lemma alpha_of_integer z :
  Zfloor (Design.alpha_of (IZR z)) = Z.max 0 (Z.min 255 ((z - 20) * 255 / 100)).
Proof.
  unfold Design.alpha_of, Design.clamp.
  set (n := ((z - 20) * 255)%Z).
  assert (Hx : (IZR z - 20) / 100 * 255 = IZR n / 100).
  { unfold n. rewrite mult_IZR, minus_IZR. lra. }
  rewrite Hx.
  pose proof (Z.div_mod n 100 ltac:(lia)) as Hdm.
  pose proof (Z.mod_pos_bound n 100 ltac:(lia)) as Hm.
  set (q := (n / 100)%Z) in *. set (r := (n mod 100)%Z) in *.
  assert (Hn : IZR n = 100 * IZR q + IZR r).
  { rewrite Hdm, plus_IZR, mult_IZR. reflexivity. }
  assert (Hr0 : 0 <= IZR r) by (apply IZR_le; lia).
  assert (Hr1 : IZR r <= 99) by (apply IZR_le; lia).
  destruct (Z_lt_le_dec q 0) as [Hq | Hq].
  - (* below the ramp *)
    assert (IZR q <= -1) by (apply IZR_le; lia).
    rewrite Rmin_left by lra. rewrite Rmax_left by lra.
    replace 0 with (IZR 0) by reflexivity. rewrite ZfloorZ. lia.
  - destruct (Z_lt_le_dec q 255) as [Hq' | Hq'].
    + (* on the ramp *)
      assert (0 <= IZR q) by (apply IZR_le; lia).
      assert (IZR q <= 254) by (apply IZR_le; lia).
      rewrite Rmin_left by lra. rewrite Rmax_right by lra.
      rewrite (Zfloor_eq q) by lra. lia.
    + (* above the ramp *)
      assert (255 <= IZR q) by (apply IZR_le; lia).
      rewrite Rmin_right by lra. rewrite Rmax_right by lra.
      replace 255 with (IZR 255) by reflexivity. rewrite ZfloorZ. lia.
Qed.

(** Run on binary64, the ramp gives at every decodable height the channel
    its exact reading gives: rounding never moves the value across an
    integer. *)
Lemma alpha_binary64_all :
  forallb (fun z => Binary64.alpha_channel z =? Z.max 0 (Z.min 255 ((z - 20) * 255 / 100)))%Z
    Binary64.all_heights = true.
Proof. vm_compute. reflexivity. Qed.

Lemma in_range n a z :
  (a <= z < a + Z.of_nat n)%Z -> In z (Binary64.range n a).
Proof.
  revert a. induction n as [| n IH]; intros a Hz.
  - lia.
  - cbn [Binary64.range]. destruct (Z.eq_dec a z) as [-> | Hne].
    + left. reflexivity.
    + right. apply IH. lia.
Qed.

Lemma alpha_binary64 (z : Z) :
  (-32768 <= z <= 32767)%Z ->
  Binary64.alpha_channel z = Z.max 0 (Z.min 255 ((z - 20) * 255 / 100)).
Proof.
  intros Hz. apply Z.eqb_eq.
  pose proof alpha_binary64_all as Hall. rewrite forallb_forall in Hall.
  apply (Hall z). unfold Binary64.all_heights. apply in_range. lia.
Qed.

(** C6, as stated, fails at height 70: on the tile whose pixels are all
    (R=128, G=70, B=0) the height is 70 and the ramp value is 127.5, and the
    alpha channel of the output pixel is 127, not 128. *)
Lemma alpha_70_counterexample :
  exists px,
    hillshade_px (flat_tile (pxl_from_rgba 128 70 0 255)) 0 0 = Some px
    /\ l_hgt px = 70
    /\ l_alpha px = 127.5
    /\ alpha (l_color3 px) = 127%Z
    /\ alpha (l_color3 px) <> 128%Z.
Proof.
  destruct (hillshade_px_defined (flat_tile (pxl_from_rgba 128 70 0 255)) 0 0
              (flat_tile_516 _)) as [px Hpx]; [lia | lia |].
  exists px. split; [exact Hpx |].
  destruct (hillshade_px_inv _ _ _ _ Hpx)
    as (hgt & east & west & south & north & H0 & _ & _ & _ & _ & ->).
  pose proof (flat_get_height (flat_tile (pxl_from_rgba 128 70 0 255))
                (height_val (pxl_from_rgba 128 70 0 255)) 0 0 hgt
                (flat_tile_flat (pxl_from_rgba 128 70 0 255)) H0) as Hh.
  rewrite height_val_ignores_blue in Hh by (unfold is_uint8; lia).
  change (IZR (128 * 256 + 70 - 32768)) with 70 in Hh.
  destruct (hillshade_locals_alpha hgt east west south north) as (-> & -> & ->).
  rewrite Hh. replace 70 with (IZR 70) by reflexivity.
  rewrite alpha_of_integer.
  split; [reflexivity |]. split.
  - unfold Design.alpha_of, Design.clamp.
    rewrite Rmin_left by lra. rewrite Rmax_right by lra. lra.
  - split; [reflexivity | discriminate].
Qed.

(** C6, amended: for every pixel, the alpha value is
    clamp((height - 20) / 100 * 255, 0, 255) and the alpha channel of the
    output pixel is its integer part (the conversion truncates, it does not
    round): at the pixel's integer height z the channel is
    max(0, min(255, floor((z - 20) * 255 / 100))), which is also what the
    binary64 computation gives; height 20 yields alpha 0, height 120 yields
    alpha 255, and height 70 (value 127.5) yields 127. *)
Theorem alpha_channel_truncates (input : image_rgba8) (row col : Z) (px : locals) :
  hillshade_px input row col = Some px ->
  l_alpha px = Design.alpha_of (l_hgt px)
  /\ alpha (l_color3 px) = Zfloor (l_alpha px)
  /\ (exists z, l_hgt px = IZR z
        /\ alpha (l_color3 px) = Z.max 0 (Z.min 255 ((z - 20) * 255 / 100))
        /\ alpha (l_color3 px) = Binary64.alpha_channel z)
  /\ (l_hgt px = 20 -> alpha (l_color3 px) = 0%Z)
  /\ (l_hgt px = 120 -> alpha (l_color3 px) = 255%Z)
  /\ (l_hgt px = 70 -> alpha (l_color3 px) = 127%Z).
Proof.
  intros Hpx.
  destruct (hillshade_px_inv _ _ _ _ Hpx)
    as (hgt & east & west & south & north & H0 & _ & _ & _ & _ & ->).
  destruct (get_height_integer _ _ _ _ H0) as (z & Hz & Hrange).
  destruct (hillshade_locals_alpha hgt east west south north) as (-> & -> & ->).
  split; [reflexivity |]. split; [reflexivity |].
  split.
  { exists z. split; [exact Hz |]. rewrite Hz, alpha_of_integer.
    split; [reflexivity | symmetry; apply alpha_binary64; exact Hrange]. }
  split; [| split]; intros ->.
  - replace 20 with (IZR 20) by reflexivity. rewrite alpha_of_integer. reflexivity.
  - replace 120 with (IZR 120) by reflexivity. rewrite alpha_of_integer. reflexivity.
  - replace 70 with (IZR 70) by reflexivity. rewrite alpha_of_integer. reflexivity.
Qed.

Lemma alpha_channel_truncates_witness :
  exists px,
    hillshade_px (flat_tile (pxl_from_rgba 128 70 0 255)) 0 0 = Some px
    /\ l_alpha px = Design.alpha_of (l_hgt px)
    /\ alpha (l_color3 px) = Zfloor (l_alpha px)
    /\ (exists z, l_hgt px = IZR z
          /\ alpha (l_color3 px) = Z.max 0 (Z.min 255 ((z - 20) * 255 / 100))
          /\ alpha (l_color3 px) = Binary64.alpha_channel z)
    /\ (l_hgt px = 20 -> alpha (l_color3 px) = 0%Z)
    /\ (l_hgt px = 120 -> alpha (l_color3 px) = 255%Z)
    /\ (l_hgt px = 70 -> alpha (l_color3 px) = 127%Z).
Proof.
  destruct (hillshade_px_defined (flat_tile (pxl_from_rgba 128 70 0 255)) 0 0
              (flat_tile_516 _)) as [px Hpx]; [lia | lia |].
  exists px. split; [exact Hpx |].
  exact (alpha_channel_truncates _ 0 0 px Hpx).
Defined.

(** * The loops of [process_hillshade] *)

Local Open Scope Z_scope.

(** A loop whose body keeps an invariant, and is defined wherever the
    invariant holds, runs to its end and establishes the invariant there. *)
Lemma for_loop_inv {S : Type} (P : Z -> S -> Prop) (body : Z -> S -> option S) :
  forall (n : nat) (i : Z) (s : S),
    P i s ->
    (forall k t, i <= k < i + Z.of_nat n -> P k t ->
       exists t', body k t = Some t' /\ P (k + 1) t') ->
    exists s', for_loop n i body s = Some s' /\ P (i + Z.of_nat n) s'.
Proof.
  induction n as [| n IH]; intros i s Hs Hbody.
  - exists s. cbn [for_loop]. rewrite Z.add_0_r. split; [reflexivity | exact Hs].
  - destruct (Hbody i s) as (t & Ht & HPt); [lia | exact Hs |].
    cbn [for_loop]. rewrite Ht.
    destruct (IH (i + 1) t HPt) as (s' & Hs' & HP').
    { intros k u Hk. apply Hbody. lia. }
    exists s'. split; [exact Hs' |].
    replace (i + Z.of_nat (Datatypes.S n)) with (i + 1 + Z.of_nat n) by lia.
    exact HP'.
Qed.

(** One row: [buf] receives the 512 packed pixels of the row, in order. *)
Lemma hillshade_row_spec input row :
  tile516 input -> 0 <= row <= 511 ->
  exists buf,
    hillshade_row input row = Some buf
    /\ List.length buf = 512%nat
    /\ forall col, 0 <= col <= 511 ->
         exists px, hillshade_px input row col = Some px
                    /\ nth_error buf (Z.to_nat col) = Some (l_buf px).
Proof.
  intros Htile Hrow. unfold hillshade_row.
  set (P := fun (col : Z) (buf : list Z) =>
              Z.of_nat (List.length buf) = col
              /\ forall c, 0 <= c < col ->
                   exists px, hillshade_px input row c = Some px
                              /\ nth_error buf (Z.to_nat c) = Some (l_buf px)).
  destruct (for_loop_inv P
              (fun col buf => px <- hillshade_px input row col ;; Some (buf ++ [l_buf px]))
              512 0 []) as (buf & Hbuf & Hlen & Hpx).
  - split; [reflexivity | intros c Hc; lia].
  - intros k t Hk [Hlen Hprev].
    destruct (hillshade_px_defined input row k Htile Hrow) as [px Hpx]; [lia |].
    exists (t ++ [l_buf px]). rewrite Hpx. cbn [bind]. split; [reflexivity |].
    split.
    + rewrite length_app. cbn [List.length]. lia.
    + intros c Hc. destruct (Z.eq_dec c k) as [-> | Hne].
      * exists px. split; [exact Hpx |].
        rewrite nth_error_app2 by lia.
        replace (Z.to_nat k - List.length t)%nat with 0%nat by lia. reflexivity.
      * destruct (Hprev c) as (px' & Hpx' & Hnth); [lia |].
        exists px'. split; [exact Hpx' |].
        rewrite nth_error_app1 by lia. exact Hnth.
  - exists buf. split; [exact Hbuf |]. split; [lia |].
    intros col Hcol. apply Hpx. lia.
Qed.

Lemma new_image_512 : image512 (new_image 512 512).
Proof.
  unfold image512, new_image. cbn [width height data].
  split; [reflexivity | split; [reflexivity |]].
  rewrite repeat_length. reflexivity.
Qed.

(** [set_row] on a 512 x 512 image: the row holds [buf], the other rows are
    unchanged. *)
Lemma set_row_spec out row buf :
  image512 out -> 0 <= row <= 511 -> List.length buf = 512%nat ->
  exists out',
    set_row out row buf = Some out'
    /\ image512 out'
    /\ (forall c, 0 <= c <= 511 ->
          load out' (get_row out' row + c) = nth_error buf (Z.to_nat c))
    /\ (forall r c, 0 <= r <= 511 -> r <> row -> 0 <= c <= 511 ->
          load out' (get_row out' r + c) = load out (get_row out r + c)).
Proof.
  intros (Hw & Hh & Hlen) Hrow Hbuf.
  unfold set_row, get_row. rewrite Hw.
  replace ((0 <=? row * 512)
           && (row * 512 + Z.of_nat (List.length buf) <=? Z.of_nat (List.length (data out))))
    with true by (symmetry; rewrite andb_true_iff, !Z.leb_le; lia).
  eexists. split; [reflexivity |].
  set (p := Z.to_nat (row * 512)).
  assert (Hfirst : List.length (firstn p (data out)) = p).
  { rewrite length_firstn. lia. }
  cbn [width height data].
  split.
  { unfold image512. cbn [width height data].
    split; [reflexivity | split; [exact Hh |]].
    rewrite !length_app, Hfirst, length_skipn. lia. }
  split.
  - intros c Hc. unfold load. cbn [data].
    destruct (Z.leb_spec 0 (row * 512 + c)) as [_ | Hneg]; [| lia].
    rewrite nth_error_app2 by lia.
    rewrite nth_error_app1 by lia.
    f_equal. lia.
  - intros r c Hr Hne Hc. unfold load. cbn [data].
    destruct (Z.leb_spec 0 (r * 512 + c)) as [_ | Hneg]; [| lia].
    destruct (Z_lt_le_dec r row) as [Hlt | Hgt].
    + rewrite nth_error_app1 by lia.
      rewrite nth_error_firstn.
      destruct (Nat.ltb_spec (Z.to_nat (r * 512 + c)) p) as [_ | Hge]; [reflexivity | lia].
    + rewrite nth_error_app2 by lia.
      rewrite nth_error_app2 by lia.
      rewrite nth_error_skipn. f_equal. lia.
Qed.

(** [process_hillshade] on a 516 x 516 tile runs to its end, and the output
    pixel at [(row, col)] is the one the loop body packed for [(row, col)]. *)
Lemma process_hillshade_spec input output :
  tile516 input -> image512 output ->
  exists out,
    process_hillshade input output = Some out
    /\ image512 out
    /\ forall row col, 0 <= row <= 511 -> 0 <= col <= 511 ->
         exists px, hillshade_px input row col = Some px
                    /\ load out (get_row out row + col) = Some (l_buf px).
Proof.
  intros Htile Hout. unfold process_hillshade.
  set (Q := fun (row : Z) (out : image_rgba8) =>
              image512 out
              /\ forall r c, 0 <= r < row -> 0 <= c <= 511 ->
                   exists px, hillshade_px input r c = Some px
                              /\ load out (get_row out r + c) = Some (l_buf px)).
  destruct (for_loop_inv Q
              (fun row output => buf <- hillshade_row input row ;; set_row output row buf)
              512 0 output) as (out & Hrun & Himg & Hpx).
  - split; [exact Hout | intros r c Hr; lia].
  - intros k t Hk [Himg Hprev].
    destruct (hillshade_row_spec input k Htile) as (buf & Hbuf & Hlen & Hrowpx); [lia |].
    rewrite Hbuf. cbn [bind].
    destruct (set_row_spec t k buf Himg) as (t' & Hset & Himg' & Hnew & Hold);
      [lia | exact Hlen |].
    exists t'. split; [exact Hset |]. split; [exact Himg' |].
    intros r c Hr Hc. destruct (Z.eq_dec r k) as [-> | Hne].
    + destruct (Hrowpx c Hc) as (px & Hpx & Hnth).
      exists px. split; [exact Hpx |]. rewrite Hnew by lia. exact Hnth.
    + destruct (Hprev r c) as (px & Hpx & Hld); [lia | exact Hc |].
      exists px. split; [exact Hpx |]. rewrite Hold by lia. exact Hld.
  - exists out. split; [exact Hrun |]. split; [exact Himg |].
    intros row col Hr Hc. apply Hpx; lia.
Qed.

(** * The featureset *)

(** The last [catch] clause takes every exception. *)
Lemma next_handlers_total e : exists msg, catch_with next_handlers e = Some msg.
Proof.
  unfold next_handlers. cbn [catch_with].
  destruct (catch_image_reader_exception e) as [m |]; [eexists; reflexivity |].
  destruct (catch_std_exception e) as [m |]; [eexists; reflexivity |].
  eexists. reflexivity.
Qed.

(** A [try] block with the handlers of [next] lets no exception out. *)
Lemma try_catch_next_handlers {A : Type} (body : outcome A) :
  body <> Undefined ->
  exists r log, try_catch body next_handlers = Val (r, log)
                /\ (forall a, body = Val a -> r = Some a /\ log = [])
                /\ (forall e, body = Raise e -> r = None /\ exists msg, log = [msg]).
Proof.
  intros Hdef. destruct body as [a | e |]; [| | congruence].
  - exists (Some a), []. cbn [try_catch]. split; [reflexivity |].
    split; [intros b Hb; injection Hb as <-; split; reflexivity | intros e He; discriminate].
  - destruct (next_handlers_total e) as [msg Hmsg].
    exists None, [msg]. cbn [try_catch]. rewrite Hmsg. split; [reflexivity |].
    split; [intros b Hb; discriminate |].
    intros e' _. split; [reflexivity | exists msg; reflexivity].
Qed.

(** The [try] block of [next] by what the reader does. *)
Lemma next_try_cases fs feature rd :
  reader_contract rd ->
  (read_or_decode_fails rd /\ exists e, next_try fs feature rd = Raise e)
  \/ (exists img out,
        rd = Val (any_rgba8 img)
        /\ process_hillshade img (new_image 512 512) = Some out
        /\ image512 out
        /\ next_try fs feature rd
           = Val (set_raster feature
                    (mk_raster (extent_ fs) (extent_ fs) out (filter_factor_ fs)))).
Proof.
  intros Hrd. destruct rd as [[img |] | e |]; cbn [reader_contract] in Hrd.
  - right.
    destruct (process_hillshade_spec img (new_image 512 512) Hrd new_image_512)
      as (out & Hout & Himg & _).
    exists img, out. split; [reflexivity |]. split; [exact Hout |]. split; [exact Himg |].
    unfold next_try. cbn [obind get_rgba8]. rewrite Hout. reflexivity.
  - left. split; [exact I |]. eexists. reflexivity.
  - left. split; [exact I |]. exists e. reflexivity.
  - contradiction.
Qed.

(** A call on a producer that is Done returns the empty pointer and changes
    nothing; the reader is not called. *)
Lemma next_done fs rd : done fs = true -> next fs rd = Val (None, fs, []).
Proof. intros H. unfold next. rewrite H. reflexivity. Qed.

(** A call on a producer that is Ready returns a feature with the current
    id, and leaves the producer Done; the raster is attached exactly when the
    read and the decode succeed. *)
Lemma next_ready fs rd :
  done fs = false -> reader_contract rd ->
  exists f log,
    next fs rd
    = Val (Some f,
           mk_featureset (feature_id_ fs + 1) (extent_ fs) (bbox_ fs)
             (filter_factor_ fs) true,
           log)
    /\ id_ f = feature_id_ fs
    /\ (read_or_decode_fails rd -> raster_ f = None /\ exists msg, log = [msg])
    /\ (~ read_or_decode_fails rd ->
        log = [] /\ exists r, raster_ f = Some r /\ image512 (data_ r)).
Proof.
  intros Hready Hrd. unfold next. rewrite Hready.
  set (fs1 := mk_featureset (feature_id_ fs + 1) (extent_ fs) (bbox_ fs)
                (filter_factor_ fs) false).
  set (feature := mk_feature (feature_id_ fs) None).
  destruct (next_try_cases fs1 feature rd Hrd)
    as [(Hfail & e & He) | (img & out & -> & Hout & Himg & Hval)].
  - rewrite He. cbn [try_catch].
    destruct (next_handlers_total e) as [msg ->]. cbn [obind fst snd].
    exists feature, [msg]. split; [reflexivity |]. split; [reflexivity |].
    split; [intros _; split; [reflexivity | exists msg; reflexivity] |].
    intros Hn. contradiction.
  - rewrite Hval. cbn [try_catch obind fst snd].
    eexists. exists []. split; [reflexivity |]. split; [reflexivity |].
    split; [intros []|].
    intros _. split; [reflexivity |]. eexists. split; [reflexivity | exact Himg].
Qed.

(** Every call under the reader's contract returns, and leaves the producer
    Done. *)
Lemma next_returns fs rd :
  reader_contract rd ->
  exists f fs' log, next fs rd = Val (f, fs', log) /\ done fs' = true.
Proof.
  intros Hrd. destruct (done fs) eqn:Hd.
  - exists None, fs, []. split; [apply next_done; exact Hd | exact Hd].
  - destruct (next_ready fs rd Hd Hrd) as (f & log & Hnext & _).
    eexists. eexists. exists log. split; [exact Hnext | reflexivity].
Qed.

(** Calls on a producer that is Done all return the empty pointer. *)
Lemma calls_done fs rds :
  done fs = true -> calls fs rds = Val (repeat None (List.length rds), fs).
Proof.
  intros Hd. induction rds as [| rd rds IH].
  - reflexivity.
  - cbn [calls]. rewrite (next_done fs rd Hd). cbn [obind fst snd].
    rewrite IH. reflexivity.
Qed.

Lemma failure_within_contract rd : read_or_decode_fails rd -> reader_contract rd.
Proof.
  destruct rd as [[img |] | e |]; cbn [read_or_decode_fails reader_contract];
    intros H; first [contradiction | exact I].
Qed.

(** C7: whatever the state of the producer and whatever the first call to
    [next] meets (a raster produced, a failed read, a failed decode), after
    that call the producer is Done, and the second and every later call
    returns the empty pointer, "no more results". *)
Theorem single_shot (fs : terrarium_featureset) (rd : read_result)
    (rds : list read_result) :
  reader_contract rd ->
  exists first fs1 log,
    next fs rd = Val (first, fs1, log)
    /\ done fs1 = true
    /\ (forall rd', next fs1 rd' = Val (None, fs1, []))
    /\ calls fs (rd :: rds) = Val (first :: repeat None (List.length rds), fs1).
Proof.
  intros Hrd.
  destruct (next_returns fs rd Hrd) as (first & fs1 & log & Hnext & Hdone).
  exists first, fs1, log.
  split; [exact Hnext |]. split; [exact Hdone |].
  split; [intros rd'; apply next_done; exact Hdone |].
  cbn [calls]. rewrite Hnext. cbn [obind fst snd].
  rewrite (calls_done fs1 rds Hdone). reflexivity.
Qed.

Lemma single_shot_witness :
  exists first fs1 log,
    next (new_featureset world world 1) (Val (any_rgba8 (flat_tile 0)))
    = Val (first, fs1, log)
    /\ done fs1 = true
    /\ (forall rd', next fs1 rd' = Val (None, fs1, []))
    /\ calls (new_featureset world world 1)
         [Val (any_rgba8 (flat_tile 0)); Val (any_rgba8 (flat_tile 0)); Raise other_exception]
       = Val (first :: repeat None 2, fs1).
Proof.
  apply (single_shot (new_featureset world world 1) (Val (any_rgba8 (flat_tile 0)))
           [Val (any_rgba8 (flat_tile 0)); Raise other_exception]).
  apply flat_tile_516.
Defined.

(** C8: when the read or the decode fails on a call to [next] of a producer
    that is Ready, the call returns normally (no exception leaves it, and its
    behaviour is defined): it returns a feature with no raster, logs one line,
    and leaves the producer Done. *)
Theorem failure_is_caught (fs : terrarium_featureset) (rd : read_result) :
  done fs = false -> read_or_decode_fails rd ->
  exists msg,
    next fs rd
    = Val (Some (mk_feature (feature_id_ fs) None),
           mk_featureset (feature_id_ fs + 1) (extent_ fs) (bbox_ fs)
             (filter_factor_ fs) true,
           [msg]).
Proof.
  intros Hready Hfail.
  destruct (next_ready fs rd Hready (failure_within_contract rd Hfail))
    as (f & log & Hnext & Hid & Hnone & _).
  destruct (Hnone Hfail) as (Hr & msg & ->).
  exists msg. rewrite Hnext. destruct f as [i r]. cbn [id_ raster_] in Hid, Hr.
  subst i r. reflexivity.
Qed.

Lemma failure_is_caught_witness :
  exists msg,
    next (new_featureset world world 1) (Raise (image_reader_exception "cannot read tile"))
    = Val (Some (mk_feature 1 None), mk_featureset (1 + 1) world world 1 true, [msg]).
Proof.
  apply (failure_is_caught (new_featureset world world 1)
           (Raise (image_reader_exception "cannot read tile"))).
  - reflexivity.
  - exact I.
Defined.

(** C10: the first call to [next] of a new featureset returns a non-null
    feature whose id is 1, also when the read or the decode fails; in that
    case the feature has no raster, and otherwise it carries the 512 x 512
    raster. *)
Theorem first_call_feature (extent q_bbox : box2d) (q_filter_factor : R)
    (rd : read_result) :
  reader_contract rd ->
  exists f fs' log,
    next (new_featureset extent q_bbox q_filter_factor) rd = Val (Some f, fs', log)
    /\ id_ f = 1
    /\ (read_or_decode_fails rd -> raster_ f = None)
    /\ (~ read_or_decode_fails rd -> exists r, raster_ f = Some r /\ image512 (data_ r)).
Proof.
  intros Hrd.
  destruct (next_ready (new_featureset extent q_bbox q_filter_factor) rd) as
    (f & log & Hnext & Hid & Hfail & Hok); [reflexivity | exact Hrd |].
  exists f. eexists. exists log.
  split; [exact Hnext |]. split; [exact Hid |].
  split.
  - intros H. exact (proj1 (Hfail H)).
  - intros H. exact (proj2 (Hok H)).
Qed.

Lemma first_call_feature_witness :
  exists f fs' log,
    next (new_featureset world world 1) (Val any_other) = Val (Some f, fs', log)
    /\ id_ f = 1
    /\ (read_or_decode_fails (Val any_other) -> raster_ f = None)
    /\ (~ read_or_decode_fails (Val any_other) ->
        exists r, raster_ f = Some r /\ image512 (data_ r)).
Proof.
  apply (first_call_feature world world 1 (Val any_other)).
  exact I.
Defined.

(** * Packing and decoding: round trips *)

Local Open Scope Z_scope.

Lemma land_ff_wrap8 z : wrap8 (Z.land z 255) = Z.land z 255.
Proof. apply wrap8_id. rewrite land_ff. apply wrap8_range. Qed.

(** The four bytes of a number in base 256. *)
Lemma unpack_value r g b a :
  is_uint8 r -> is_uint8 g -> is_uint8 b -> is_uint8 a ->
  let p := r + 256 * g + 65536 * b + 16777216 * a in
  is_uint32 p
  /\ Z.land p 255 = r
  /\ Z.land (Z.shiftr p 8) 255 = g
  /\ Z.land (Z.shiftr p 16) 255 = b
  /\ Z.shiftr p 24 = a.
Proof.
  intros Hr Hg Hb Ha p.
  destruct (unpack_channels r g b a Hr Hg Hb Ha) as (Er & Eg & Eb).
  fold p in Er, Eg, Eb. rewrite land_ff_wrap8 in Er, Eg, Eb.
  unfold is_uint8, is_uint32 in *.
  split; [subst p; lia |]. split; [exact Er |]. split; [exact Eg |]. split; [exact Eb |].
  rewrite Z.shiftr_div_pow2 by lia. change (2 ^ 24) with 16777216.
  subst p.
  replace (r + 256 * g + 65536 * b + 16777216 * a)
    with ((r + 256 * g + 65536 * b) + a * 16777216) by lia.
  rewrite Z.div_add by lia. rewrite Z.div_small by lia. lia.
Qed.

Lemma pxl_from_rgba_unpack_aux r g b a :
  is_uint8 r -> is_uint8 g -> is_uint8 b -> is_uint8 a ->
  is_uint32 (pxl_from_rgba r g b a)
  /\ Z.land (pxl_from_rgba r g b a) 255 = r
  /\ Z.land (Z.shiftr (pxl_from_rgba r g b a) 8) 255 = g
  /\ Z.land (Z.shiftr (pxl_from_rgba r g b a) 16) 255 = b
  /\ Z.shiftr (pxl_from_rgba r g b a) 24 = a.
Proof.
  intros Hr Hg Hb Ha. rewrite pxl_from_rgba_value by assumption.
  exact (unpack_value r g b a Hr Hg Hb Ha).
Qed.

(** X1: [pxl_from_rgba] on four 8-bit channels gives a 32-bit word from
    which each channel is read back: red is the low byte, then green, blue,
    and alpha the high byte. *)
Theorem pxl_from_rgba_unpack (r g b a : Z) :
  is_uint8 r -> is_uint8 g -> is_uint8 b -> is_uint8 a ->
  is_uint32 (pxl_from_rgba r g b a)
  /\ Z.land (pxl_from_rgba r g b a) 255 = r
  /\ Z.land (Z.shiftr (pxl_from_rgba r g b a) 8) 255 = g
  /\ Z.land (Z.shiftr (pxl_from_rgba r g b a) 16) 255 = b
  /\ Z.shiftr (pxl_from_rgba r g b a) 24 = a.
Proof. exact (pxl_from_rgba_unpack_aux r g b a). Qed.

Lemma pxl_from_rgba_unpack_witness :
  is_uint32 (pxl_from_rgba 1 2 3 200)
  /\ Z.land (pxl_from_rgba 1 2 3 200) 255 = 1
  /\ Z.land (Z.shiftr (pxl_from_rgba 1 2 3 200) 8) 255 = 2
  /\ Z.land (Z.shiftr (pxl_from_rgba 1 2 3 200) 16) 255 = 3
  /\ Z.shiftr (pxl_from_rgba 1 2 3 200) 24 = 200.
Proof.
  apply (pxl_from_rgba_unpack 1 2 3 200); unfold is_uint8; lia.
Defined.

(** The two bytes [height_val] uses. *)
Lemma height_int_bytes pixel :
  height_int pixel = (pixel mod 256) * 256 + (pixel / 256) mod 256 - 32768.
Proof.
  unfold height_int. rewrite !land_ff_wrap8, !land_ff.
  rewrite !Z.shiftr_div_pow2 by lia. change (2 ^ 8) with 256.
  rewrite Z.quot_small by (apply Z.mod_pos_bound; lia). lia.
Qed.

(** X2: whatever the pixel word, [height_val] is an integer between -32768
    and 32767 that depends on the two low bytes only: the blue byte, the
    alpha byte and any higher bit never change it. *)
Theorem height_val_low_bytes (pixel : Z) :
  height_val pixel = IZR ((pixel mod 256) * 256 + (pixel / 256) mod 256 - 32768)
  /\ height_val (pixel mod 65536) = height_val pixel
  /\ (-32768 <= height_int pixel <= 32767).
Proof.
  split; [unfold height_val; rewrite height_int_bytes; reflexivity |].
  split; [| apply height_int_range].
  unfold height_val. f_equal. rewrite !height_int_bytes.
  assert (E1 : (pixel mod 65536) mod 256 = pixel mod 256).
  { change 65536 with (256 * 256).
    rewrite Z.rem_mul_r by lia.
    rewrite (Z.mul_comm 256 ((pixel / 256) mod 256)).
    rewrite Z.mod_add by lia. apply Z.mod_mod. lia. }
  assert (E2 : ((pixel mod 65536) / 256) mod 256 = (pixel / 256) mod 256).
  { change 65536 with (256 * 256).
    rewrite Z.rem_mul_r by lia.
    rewrite (Z.mul_comm 256 ((pixel / 256) mod 256)).
    rewrite Z.div_add by lia.
    rewrite (Z.div_small (pixel mod 256)) by (apply Z.mod_pos_bound; lia).
    rewrite Z.add_0_l. apply Z.mod_mod. lia. }
  rewrite E1, E2. reflexivity.
Qed.

(** X3: every integer height of [-32768, 32767] is decoded from a pixel:
    with red = (h + 32768) / 256 and green = (h + 32768) mod 256, and any blue
    and alpha, [height_val (pxl_from_rgba red green blue alpha)] is h. *)
Theorem height_val_encode (h b a : Z) :
  -32768 <= h <= 32767 -> is_uint8 b -> is_uint8 a ->
  is_uint8 ((h + 32768) / 256) /\ is_uint8 ((h + 32768) mod 256)
  /\ height_val (pxl_from_rgba ((h + 32768) / 256) ((h + 32768) mod 256) b a) = IZR h.
Proof.
  intros Hh Hb Ha.
  assert (Hr : is_uint8 ((h + 32768) / 256)).
  { unfold is_uint8. split.
    - apply Z.div_pos; lia.
    - apply Z.div_lt_upper_bound; lia. }
  assert (Hg : is_uint8 ((h + 32768) mod 256)) by apply wrap8_range.
  split; [exact Hr |]. split; [exact Hg |].
  rewrite height_val_ignores_blue by assumption. f_equal.
  pose proof (Z.div_mod (h + 32768) 256 ltac:(lia)). lia.
Qed.

Lemma height_val_encode_witness :
  is_uint8 ((70 + 32768) / 256) /\ is_uint8 ((70 + 32768) mod 256)
  /\ height_val (pxl_from_rgba ((70 + 32768) / 256) ((70 + 32768) mod 256) 9 255)
     = IZR 70.
Proof.
  apply (height_val_encode 70 9 255); unfold is_uint8; lia.
Defined.

(** X4: two pixels that decode to the same height have the same red and the
    same green channel: the height determines both. *)
Theorem height_val_injective (r g b a r' g' b' a' : Z) :
  is_uint8 r -> is_uint8 g -> is_uint8 b -> is_uint8 a ->
  is_uint8 r' -> is_uint8 g' -> is_uint8 b' -> is_uint8 a' ->
  height_val (pxl_from_rgba r g b a) = height_val (pxl_from_rgba r' g' b' a') ->
  r = r' /\ g = g'.
Proof.
  intros Hr Hg Hb Ha Hr' Hg' Hb' Ha' H.
  rewrite !height_val_ignores_blue in H by assumption.
  apply eq_IZR in H. unfold is_uint8 in *. lia.
Qed.

Lemma height_val_injective_witness :
  height_val (pxl_from_rgba 128 70 0 255) = height_val (pxl_from_rgba 128 70 200 0)
  /\ 128 = 128 /\ 70 = 70.
Proof.
  assert (E : height_val (pxl_from_rgba 128 70 0 255)
              = height_val (pxl_from_rgba 128 70 200 0)).
  { rewrite !height_val_ignores_blue by (unfold is_uint8; lia). reflexivity. }
  split; [exact E |].
  apply (height_val_injective 128 70 0 255 128 70 200 0);
    try (unfold is_uint8; lia).
  exact E.
Defined.

(** * The shaded pixel *)

Local Open Scope R_scope.

(** X5: in the pixel loop the blend never overflows: the red of the output
    is the red of light A's tint, the blue is the blue of light B's tint, and
    the green is the plain sum of the two half luminances, at most 254; the
    three channels lie in 114..255. *)
Theorem hillshade_blend_never_overflows (hgt east west south north : R) :
  let px := hillshade_locals hgt east west south north in
  red (l_color3 px) = Zfloor (l_luminance1 px)
  /\ green (l_color3 px) = (Zfloor (l_luminance1 px / 2) + Zfloor (l_luminance2 px / 2))%Z
  /\ blue (l_color3 px) = Zfloor (l_luminance2 px)
  /\ (114 <= red (l_color3 px) <= 255)%Z
  /\ (114 <= green (l_color3 px) <= 254)%Z
  /\ (114 <= blue (l_color3 px) <= 255)%Z.
Proof.
  intros px.
  destruct (hillshade_locals_lights hgt east west south north)
    as (R1 & L1 & C1 & R2 & L2 & C2).
  fold px in R1, L1, C1, R2, L2, C2.
  pose proof (lifted_luminance_fits 315 45 (l_slope px) (l_aspect px)) as F1.
  pose proof (lifted_luminance_fits 225 45 (l_slope px) (l_aspect px)) as F2.
  cbv zeta in F1, F2. rewrite <- R1, <- L1 in F1. rewrite <- R2, <- L2 in F2.
  destruct F1 as (_ & E1 & Z1 & E1h & Z1h). destruct F2 as (_ & E2 & Z2 & E2h & Z2h).
  assert (Hc : l_color3 px
               = set_alpha (blend (l_color1 px) (l_color2 px)) (to_uint8 (l_alpha px)))
    by reflexivity.
  rewrite Hc, C1, C2. unfold set_alpha, blend, mk_color, wrap8. cbn [red green blue].
  rewrite E1, E1h, E2, E2h.
  rewrite Z.add_0_r, Z.add_0_l.
  rewrite !Z.mod_small by lia.
  repeat (split; [first [reflexivity | lia] |]). lia.
Qed.

(** The colour of a shaded pixel has four 8-bit channels. *)
Lemma hillshade_color_ok hgt east west south north :
  color_ok (l_color3 (hillshade_locals hgt east west south north)).
Proof.
  unfold hillshade_locals, color_ok, set_alpha, blend, mk_color, to_uint8.
  cbn [l_color3 red green blue alpha].
  repeat split; apply wrap8_range.
Qed.

(** X6: the word stored for a shaded pixel is a 32-bit word holding the
    colour's red in its low byte, then green, blue, and alpha in its high
    byte. *)
Theorem hillshade_pixel_word (hgt east west south north : R) :
  let px := hillshade_locals hgt east west south north in
  is_uint32 (l_buf px)
  /\ Z.land (l_buf px) 255 = red (l_color3 px)
  /\ Z.land (Z.shiftr (l_buf px) 8) 255 = green (l_color3 px)
  /\ Z.land (Z.shiftr (l_buf px) 16) 255 = blue (l_color3 px)
  /\ Z.shiftr (l_buf px) 24 = alpha (l_color3 px).
Proof.
  intros px.
  pose proof (hillshade_color_ok hgt east west south north) as Hok. fold px in Hok.
  assert (Hb : l_buf px = bytes (l_color3 px)) by reflexivity.
  rewrite Hb, bytes_value by exact Hok.
  destruct Hok as (Hr & Hg & Hbl & Ha).
  exact (unpack_value _ _ _ _ Hr Hg Hbl Ha).
Qed.


(** The alpha channel of a shaded pixel at an integer height. *)
Lemma hillshade_alpha_integer z east west south north :
  alpha (l_color3 (hillshade_locals (IZR z) east west south north))
  = Z.max 0 (Z.min 255 ((z - 20) * 255 / 100)).
Proof.
  destruct (hillshade_locals_alpha (IZR z) east west south north) as (_ & _ & ->).
  apply alpha_of_integer.
Qed.

(** X8: the shaded pixel is fully transparent exactly at the heights up to
    20, and fully opaque exactly at the heights from 120 on; between them the
    alpha is strictly between 0 and 255. *)
Theorem alpha_thresholds (z : Z) (east west south north : R) :
  let a := alpha (l_color3 (hillshade_locals (IZR z) east west south north)) in
  (a = 0 <-> z <= 20)%Z /\ (a = 255 <-> 120 <= z)%Z /\ (0 <= a <= 255)%Z.
Proof.
  intros a. subst a. rewrite hillshade_alpha_integer.
  pose proof (Z.div_mod ((z - 20) * 255) 100 ltac:(lia)) as Hdm.
  pose proof (Z.mod_pos_bound ((z - 20) * 255) 100 ltac:(lia)) as Hm.
  repeat split; lia.
Qed.

(** X9: the alpha of the shaded pixel never decreases when the height
    increases. *)
Theorem alpha_monotone (z1 z2 : Z) (east west south north east' west' south' north' : R) :
  (z1 <= z2)%Z ->
  (alpha (l_color3 (hillshade_locals (IZR z1) east west south north))
   <= alpha (l_color3 (hillshade_locals (IZR z2) east' west' south' north')))%Z.
Proof.
  intros Hz. rewrite !hillshade_alpha_integer.
  assert (H : ((z1 - 20) * 255 / 100 <= (z2 - 20) * 255 / 100)%Z)
    by (apply Z.div_le_mono; lia).
  lia.
Qed.

Lemma alpha_monotone_witness :
  (alpha (l_color3 (hillshade_locals (IZR 30) 0 0 0 0))
   <= alpha (l_color3 (hillshade_locals (IZR 70) 5 1 2 3)))%Z.
Proof.
  apply (alpha_monotone 30 70 0 0 0 0 5 1 2 3). lia.
Defined.

(** X10: the slope of a pixel lies in [0, pi/2), and it is 0 exactly when the
    east and west heights agree and the south and north heights agree. *)
Theorem slope_range (hgt east west south north : R) :
  let px := hillshade_locals hgt east west south north in
  0 <= l_slope px < PI / 2
  /\ (l_slope px = 0 <-> east = west /\ south = north).
Proof.
  intros px. subst px. unfold hillshade_locals. cbn [l_slope].
  set (q := (east - west) ^ 2 + (south - north) ^ 2).
  pose proof (pow2_ge_0 (east - west)) as Hx.
  pose proof (pow2_ge_0 (south - north)) as Hy.
  assert (Hq : 0 <= q) by (unfold q; lra).
  assert (Hs : 0 <= sqrt q) by apply sqrt_pos.
  pose proof (atan_bound (0.2 * sqrt q)) as [_ Hup].
  assert (Hlow : 0 <= atan (0.2 * sqrt q)).
  { destruct (Req_dec (sqrt q) 0) as [E | N].
    - rewrite E, Rmult_0_r, atan_0. lra.
    - left. rewrite <- atan_0. apply atan_increasing. lra. }
  split; [split; [exact Hlow | exact Hup] |].
  split.
  - intros H0.
    assert (Hz : sqrt q = 0).
    { destruct (Req_dec (sqrt q) 0) as [E | N]; [exact E |].
      assert (0 < atan (0.2 * sqrt q))
        by (rewrite <- atan_0 at 1; apply atan_increasing; lra).
      lra. }
    apply sqrt_eq_0 in Hz; [| exact Hq].
    unfold q in Hz.
    assert (Hx0 : (east - west) ^ 2 = 0) by lra.
    assert (Hy0 : (south - north) ^ 2 = 0) by lra.
    rewrite <- Rsqr_pow2 in Hx0, Hy0.
    apply Rsqr_0_uniq in Hx0. apply Rsqr_0_uniq in Hy0. split; lra.
  - intros [-> ->]. unfold q.
    replace ((west - west) ^ 2 + (north - north) ^ 2) with 0 by (simpl; lra).
    rewrite sqrt_0, Rmult_0_r. apply atan_0.
Qed.

(** * The whole image *)

Local Open Scope Z_scope.

(** Two loops whose bodies agree on the rounds they run agree. *)
Lemma for_loop_ext {S : Type} (body1 body2 : Z -> S -> option S) :
  forall (n : nat) (i : Z) (s : S),
    (forall k t, i <= k < i + Z.of_nat n -> body1 k t = body2 k t) ->
    for_loop n i body1 s = for_loop n i body2 s.
Proof.
  induction n as [| n IH]; intros i s H.
  - reflexivity.
  - cbn [for_loop]. rewrite (H i s) by lia.
    destruct (body2 i s) as [t |]; [| reflexivity].
    apply IH. intros k u Hk. apply H. lia.
Qed.

(** Two 512 x 512 images with the same pixel at every coordinate are equal. *)
Lemma image512_ext a b :
  image512 a -> image512 b ->
  (forall row col, 0 <= row <= 511 -> 0 <= col <= 511 ->
     load a (get_row a row + col) = load b (get_row b row + col)) ->
  a = b.
Proof.
  intros (Hwa & Hha & Hla) (Hwb & Hhb & Hlb) Hpx.
  destruct a as [wa ha da], b as [wb hb db]. cbn [width height data] in *.
  subst wa ha wb hb. f_equal.
  apply nth_error_ext. intros n.
  destruct (Nat.lt_ge_cases n (List.length da)) as [Hlt | Hge].
  - specialize (Hpx (Z.of_nat n / 512) (Z.of_nat n mod 512)).
    unfold load, get_row in Hpx. cbn [width data] in Hpx.
    pose proof (Z.div_mod (Z.of_nat n) 512 ltac:(lia)) as Hdm.
    pose proof (Z.mod_pos_bound (Z.of_nat n) 512 ltac:(lia)) as Hm.
    assert (Hq : 0 <= Z.of_nat n / 512 <= 511).
    { split; [apply Z.div_pos; lia |].
      assert (Z.of_nat n / 512 < 512) by (apply Z.div_lt_upper_bound; lia). lia. }
    replace (Z.of_nat n / 512 * 512 + Z.of_nat n mod 512) with (Z.of_nat n) in Hpx by lia.
    destruct (Z.leb_spec 0 (Z.of_nat n)) as [_ | Hneg]; [| lia].
    rewrite Nat2Z.id in Hpx. apply Hpx; lia.
  - rewrite (proj2 (nth_error_None da n)) by lia.
    rewrite (proj2 (nth_error_None db n)) by lia. reflexivity.
Qed.

(** X11: on a 516 x 516 tile and a 512 x 512 output, [process_hillshade]
    runs to its end without reading or writing outside either buffer; the
    result is a 512 x 512 image whose pixel at every (row, col) is the word the
    loop body packs for (row, col). *)
Theorem process_hillshade_image (input output : image_rgba8) :
  tile516 input -> image512 output ->
  exists out,
    process_hillshade input output = Some out
    /\ image512 out
    /\ forall row col, 0 <= row <= 511 -> 0 <= col <= 511 ->
         exists px, hillshade_px input row col = Some px
                    /\ load out (get_row out row + col) = Some (l_buf px).
Proof. exact (process_hillshade_spec input output). Qed.

Lemma process_hillshade_image_witness :
  exists out,
    process_hillshade (flat_tile 0) (new_image 512 512) = Some out
    /\ image512 out
    /\ forall row col, 0 <= row <= 511 -> 0 <= col <= 511 ->
         exists px, hillshade_px (flat_tile 0) row col = Some px
                    /\ load out (get_row out row + col) = Some (l_buf px).
Proof.
  apply (process_hillshade_image (flat_tile 0) (new_image 512 512)).
  - apply flat_tile_516.
  - apply new_image_512.
Defined.

(** X12: [process_hillshade] overwrites every pixel of its output: the
    result does not depend on what the 512 x 512 output held before. *)
Theorem process_hillshade_overwrites (input output1 output2 : image_rgba8) :
  tile516 input -> image512 output1 -> image512 output2 ->
  process_hillshade input output1 = process_hillshade input output2.
Proof.
  intros Htile H1 H2.
  destruct (process_hillshade_spec input output1 Htile H1) as (o1 & E1 & I1 & P1).
  destruct (process_hillshade_spec input output2 Htile H2) as (o2 & E2 & I2 & P2).
  rewrite E1, E2. f_equal.
  apply image512_ext; [exact I1 | exact I2 |].
  intros row col Hr Hc.
  destruct (P1 row col Hr Hc) as (px1 & Hpx1 & ->).
  destruct (P2 row col Hr Hc) as (px2 & Hpx2 & ->).
  rewrite Hpx1 in Hpx2. injection Hpx2 as ->. reflexivity.
Qed.

Lemma all_ones_512 : image512 (mk_image 512 512 (repeat 4294967295 (Z.to_nat (512 * 512)))).
Proof.
  unfold image512. cbn [width height data].
  split; [reflexivity | split; [reflexivity |]].
  rewrite repeat_length. reflexivity.
Qed.

Lemma process_hillshade_overwrites_witness :
  process_hillshade (flat_tile 0) (new_image 512 512)
  = process_hillshade (flat_tile 0)
      (mk_image 512 512 (repeat 4294967295 (Z.to_nat (512 * 512)))).
Proof.
  apply (process_hillshade_overwrites (flat_tile 0)).
  - apply flat_tile_516.
  - apply new_image_512.
  - apply all_ones_512.
Defined.

Lemma heightAt_same tile1 tile2 row col :
  same_reachable_heights tile1 tile2 ->
  -1 <= row <= 512 -> -1 <= col <= 512 ->
  Design.heightAt tile1 row col = Design.heightAt tile2 row col.
Proof.
  intros Hsame Hrow Hcol. unfold Design.heightAt.
  specialize (Hsame (row + 2) (col + 2) ltac:(lia) ltac:(lia)).
  destruct (Design.pixel_at tile1 (row + 2) (col + 2)) as [p1 |];
    destruct (Design.pixel_at tile2 (row + 2) (col + 2)) as [p2 |];
    cbn [option_map] in *; try discriminate; [| reflexivity].
  injection Hsame as E. unfold height_val. rewrite E. reflexivity.
Qed.

Lemma hillshade_px_same tile1 tile2 row col :
  tile516 tile1 -> tile516 tile2 -> same_reachable_heights tile1 tile2 ->
  0 <= row <= 511 -> 0 <= col <= 511 ->
  hillshade_px tile1 row col = hillshade_px tile2 row col.
Proof.
  intros H1 H2 Hsame Hrow Hcol. unfold hillshade_px.
  assert (E : forall r c, -1 <= r <= 512 -> -1 <= c <= 512 ->
                get_height tile1 r c = get_height tile2 r c).
  { intros r c Hr Hc.
    destruct (get_height_heightAt tile1 r c H1) as [-> _]; try lia.
    destruct (get_height_heightAt tile2 r c H2) as [-> _]; try lia.
    apply heightAt_same; assumption. }
  rewrite (E row col), (E row (col + 1)), (E row (col - 1)),
    (E (row + 1) col), (E (row - 1) col) by lia.
  reflexivity.
Qed.

(** X13: the shaded image depends only on the heights stored at rows and
    columns 1 to 514 of the tile: the outermost ring of the margin is never
    read, and neither are the blue and alpha channels of any pixel.  Two
    516 x 516 tiles that agree on those heights give the same output. *)
Theorem process_hillshade_reads_inner_heights (tile1 tile2 output : image_rgba8) :
  tile516 tile1 -> tile516 tile2 -> same_reachable_heights tile1 tile2 ->
  process_hillshade tile1 output = process_hillshade tile2 output.
Proof.
  intros H1 H2 Hsame. unfold process_hillshade.
  apply for_loop_ext. intros row out Hrow.
  replace (hillshade_row tile1 row) with (hillshade_row tile2 row); [reflexivity |].
  unfold hillshade_row. apply for_loop_ext. intros col buf Hcol.
  rewrite (hillshade_px_same tile1 tile2 row col H1 H2 Hsame) by lia.
  reflexivity.
Qed.

Lemma marked_tile_516 : tile516 marked_tile.
Proof.
  unfold tile516, marked_tile. cbn [width height data List.length].
  split; [reflexivity | split; [reflexivity |]].
  rewrite repeat_length. lia.
Qed.

Lemma marked_tile_reachable : same_reachable_heights marked_tile (flat_tile 0).
Proof.
  intros r c Hr Hc. unfold Design.pixel_at, marked_tile, flat_tile.
  cbn [width height data].
  replace ((0 <=? r) && (r <? 516) && (0 <=? c) && (c <? 516)) with true
    by (symmetry; rewrite !andb_true_iff, !Z.leb_le, !Z.ltb_lt; lia).
  rewrite (nth_error_repeat 0) by lia.
  replace (Z.to_nat (r * 516 + c)) with (Datatypes.S (Z.to_nat (r * 516 + c - 1))) by lia.
  cbn [nth_error].
  rewrite nth_error_repeat by lia. reflexivity.
Qed.

Lemma process_hillshade_reads_inner_heights_witness :
  marked_tile <> flat_tile 0
  /\ process_hillshade marked_tile (new_image 512 512)
     = process_hillshade (flat_tile 0) (new_image 512 512).
Proof.
  split.
  - intros E.
    assert (Hm : load marked_tile 0 = Some 4294967295) by reflexivity.
    assert (Hf : load (flat_tile 0) 0 = Some 0).
    { unfold load, flat_tile. cbn [data]. change (0 <=? 0) with true. cbv iota.
      change (Z.to_nat 0) with 0%nat. apply nth_error_repeat. lia. }
    rewrite E, Hf in Hm. discriminate.
  - apply (process_hillshade_reads_inner_heights marked_tile (flat_tile 0)).
    + apply marked_tile_516.
    + apply flat_tile_516.
    + apply marked_tile_reachable.
Defined.

(** * The blue ramp of [process_heightmap] *)

Local Open Scope R_scope.

(** The alpha byte of the ramp at an integer height, in integer arithmetic. *)
Lemma heightmap_value_integer z :
  heightmap_value (IZR z) = pxl_from_rgba 0 0 255 (Z.max 0 (Z.min 255 (z * 255 / 1000))).
Proof.
  unfold heightmap_value. f_equal.
  set (n := (z * 255)%Z).
  pose proof (Z.div_mod n 1000 ltac:(lia)) as Hdm.
  pose proof (Z.mod_pos_bound n 1000 ltac:(lia)) as Hm.
  destruct (Rlt_dec (IZR z / 1000) 0) as [Hneg | Hpos].
  - (* below the ramp *)
    assert (Hz : (z < 0)%Z) by (apply lt_IZR; lra).
    destruct (Rlt_dec 1 0) as [Habs | _]; [lra |].
    rewrite Rmult_0_l. change 0 with (IZR 0). rewrite to_uint8_int by lia.
    subst n. lia.
  - assert (Hz : (0 <= z)%Z) by (apply le_IZR; lra).
    destruct (Rlt_dec 1 (IZR z / 1000)) as [Hbig | Hsmall].
    + (* above the ramp *)
      assert (Hz' : (1000 < z)%Z) by (apply lt_IZR; lra).
      rewrite Rmult_1_l. change 255 with (IZR 255). rewrite to_uint8_int by lia.
      subst n. lia.
    + (* on the ramp *)
      assert (Hz' : (z <= 1000)%Z) by (apply le_IZR; lra).
      assert (Hn : IZR n = 1000 * IZR (n / 1000) + IZR (n mod 1000)).
      { rewrite Hdm at 1. rewrite plus_IZR, mult_IZR. reflexivity. }
      assert (Hr0 : 0 <= IZR (n mod 1000)) by (apply IZR_le; lia).
      assert (Hr1 : IZR (n mod 1000) <= 999) by (apply IZR_le; lia).
      assert (Hx : IZR z / 1000 * 255 = IZR n / 1000).
      { unfold n. rewrite mult_IZR. lra. }
      assert (Hq : (0 <= n / 1000 <= 255)%Z) by (subst n; lia).
      assert (Hq0 : 0 <= IZR (n / 1000)) by (apply IZR_le; lia).
      assert (Hq1 : IZR (n / 1000) <= 255) by (apply IZR_le; lia).
      destruct (to_uint8_in_range (IZR z / 1000 * 255)) as [-> _]; [rewrite Hx; lra |].
      rewrite (Zfloor_eq (n / 1000)) by (rewrite Hx; lra).
      lia.
Qed.

(** Run on binary64, the ramp gives the same byte at every decodable height. *)
Lemma heightmap_binary64_all :
  forallb (fun z => Binary64.heightmap_alpha z =? Z.max 0 (Z.min 255 (z * 255 / 1000)))%Z
    Binary64.all_heights = true.
Proof. vm_compute. reflexivity. Qed.

(** X14: at an integer height z, the pixel [process_heightmap] stores has
    red 0, green 0, blue 255 and alpha max(0, min(255, floor(z * 255 / 1000))),
    the byte the binary64 computation gives too; the alpha is 0 exactly up to
    height 3 and 255 exactly from height 1000 on. *)
Theorem heightmap_pixel (z : Z) :
  (-32768 <= z <= 32767)%Z ->
  let v := Z.max 0 (Z.min 255 (z * 255 / 1000)) in
  let word := heightmap_value (IZR z) in
  is_uint32 word
  /\ Z.land word 255 = 0%Z
  /\ Z.land (Z.shiftr word 8) 255 = 0%Z
  /\ Z.land (Z.shiftr word 16) 255 = 255%Z
  /\ Z.shiftr word 24 = v
  /\ v = Binary64.heightmap_alpha z
  /\ (v = 0 <-> z <= 3)%Z /\ (v = 255 <-> 1000 <= z)%Z.
Proof.
  intros Hz v word. subst word. rewrite heightmap_value_integer. fold v.
  pose proof (Z.div_mod (z * 255) 1000 ltac:(lia)) as Hdm.
  pose proof (Z.mod_pos_bound (z * 255) 1000 ltac:(lia)) as Hm.
  assert (Hv : is_uint8 v) by (unfold is_uint8; subst v; lia).
  assert (H0 : is_uint8 0) by (unfold is_uint8; lia).
  assert (H255 : is_uint8 255) by (unfold is_uint8; lia).
  destruct (pxl_from_rgba_unpack_aux 0 0 255 v H0 H0 H255 Hv) as (W & R0 & G0 & B0 & A0).
  repeat (split; [assumption |]).
  split.
  - symmetry. apply Z.eqb_eq.
    pose proof heightmap_binary64_all as Hall. rewrite forallb_forall in Hall.
    apply (Hall z). unfold Binary64.all_heights. apply in_range. lia.
  - subst v. split; lia.
Qed.

Lemma heightmap_pixel_witness :
  let v := Z.max 0 (Z.min 255 (500 * 255 / 1000)) in
  let word := heightmap_value (IZR 500) in
  is_uint32 word
  /\ Z.land word 255 = 0%Z
  /\ Z.land (Z.shiftr word 8) 255 = 0%Z
  /\ Z.land (Z.shiftr word 16) 255 = 255%Z
  /\ Z.shiftr word 24 = v
  /\ v = Binary64.heightmap_alpha 500
  /\ (v = 0 <-> 500 <= 3)%Z /\ (v = 255 <-> 1000 <= 500)%Z.
Proof.
  apply (heightmap_pixel 500). lia.
Defined.

Local Open Scope Z_scope.

Lemma heightmap_row_spec input row :
  tile516 input -> 0 <= row <= 511 ->
  exists buf,
    heightmap_row input row = Some buf
    /\ List.length buf = 512%nat
    /\ forall col, 0 <= col <= 511 ->
         exists hgt, get_height input row col = Some hgt
                     /\ nth_error buf (Z.to_nat col) = Some (heightmap_value hgt).
Proof.
  intros Htile Hrow. unfold heightmap_row.
  set (P := fun (col : Z) (buf : list Z) =>
              Z.of_nat (List.length buf) = col
              /\ forall c, 0 <= c < col ->
                   exists hgt, get_height input row c = Some hgt
                               /\ nth_error buf (Z.to_nat c) = Some (heightmap_value hgt)).
  destruct (for_loop_inv P
              (fun col buf => hgt <- get_height input row col ;;
                              Some (buf ++ [heightmap_value hgt]))
              512 0 []) as (buf & Hbuf & Hlen & Hpx).
  - split; [reflexivity | intros c Hc; lia].
  - intros k t Hk [Hlen Hprev].
    destruct (get_height_heightAt input row k Htile) as (_ & p & Hp); try lia.
    exists (t ++ [heightmap_value (height_val p)]). rewrite Hp. cbn [bind].
    split; [reflexivity |]. split.
    + rewrite length_app. cbn [List.length]. lia.
    + intros c Hc. destruct (Z.eq_dec c k) as [-> | Hne].
      * exists (height_val p). split; [exact Hp |].
        rewrite nth_error_app2 by lia.
        replace (Z.to_nat k - List.length t)%nat with 0%nat by lia. reflexivity.
      * destruct (Hprev c) as (h & Hh & Hnth); [lia |].
        exists h. split; [exact Hh |].
        rewrite nth_error_app1 by lia. exact Hnth.
  - exists buf. split; [exact Hbuf |]. split; [lia |].
    intros col Hcol. apply Hpx. lia.
Qed.

(** X15: on a 516 x 516 tile and a 512 x 512 output, [process_heightmap]
    runs to its end inside both buffers; the result is a 512 x 512 image whose
    pixel at every (row, col) is the ramp pixel of the height decoded at
    storage coordinate (row+2, col+2): the margin is skipped, not rendered. *)
Theorem process_heightmap_image (input output : image_rgba8) :
  tile516 input -> image512 output ->
  exists out,
    process_heightmap input output = Some out
    /\ image512 out
    /\ forall row col, 0 <= row <= 511 -> 0 <= col <= 511 ->
         exists hgt, Design.heightAt input row col = Some hgt
                     /\ load out (get_row out row + col) = Some (heightmap_value hgt).
Proof.
  intros Htile Hout. unfold process_heightmap.
  set (Q := fun (row : Z) (out : image_rgba8) =>
              image512 out
              /\ forall r c, 0 <= r < row -> 0 <= c <= 511 ->
                   exists hgt, Design.heightAt input r c = Some hgt
                               /\ load out (get_row out r + c) = Some (heightmap_value hgt)).
  destruct (for_loop_inv Q
              (fun row output => buf <- heightmap_row input row ;; set_row output row buf)
              512 0 output) as (out & Hrun & Himg & Hpx).
  - split; [exact Hout | intros r c Hr; lia].
  - intros k t Hk [Himg Hprev].
    destruct (heightmap_row_spec input k Htile) as (buf & Hbuf & Hlen & Hrowpx); [lia |].
    rewrite Hbuf. cbn [bind].
    destruct (set_row_spec t k buf Himg) as (t' & Hset & Himg' & Hnew & Hold);
      [lia | exact Hlen |].
    exists t'. split; [exact Hset |]. split; [exact Himg' |].
    intros r c Hr Hc. destruct (Z.eq_dec r k) as [-> | Hne].
    + destruct (Hrowpx c Hc) as (h & Hh & Hnth).
      exists h. split.
      * destruct (get_height_heightAt input k c Htile) as [<- _]; try lia. exact Hh.
      * rewrite Hnew by lia. exact Hnth.
    + destruct (Hprev r c) as (h & Hh & Hld); [lia | exact Hc |].
      exists h. split; [exact Hh |]. rewrite Hold by lia. exact Hld.
  - exists out. split; [exact Hrun |]. split; [exact Himg |].
    intros row col Hr Hc. apply Hpx; lia.
Qed.

Lemma process_heightmap_image_witness :
  exists out,
    process_heightmap (flat_tile 0) (new_image 512 512) = Some out
    /\ image512 out
    /\ forall row col, 0 <= row <= 511 -> 0 <= col <= 511 ->
         exists hgt, Design.heightAt (flat_tile 0) row col = Some hgt
                     /\ load out (get_row out row + col) = Some (heightmap_value hgt).
Proof.
  apply (process_heightmap_image (flat_tile 0) (new_image 512 512)).
  - apply flat_tile_516.
  - apply new_image_512.
Defined.

(** * The featureset over a run of calls *)

(** X16: over any run of calls on a new featureset, exactly one feature is
    returned, by the first call and with id 1; every later call returns the
    empty pointer; at the end [feature_id_] is 2, the producer is Done, and the
    extents and the filter factor are the ones given to the constructor. *)
Theorem calls_from_construction (extent q_bbox : box2d) (q_filter_factor : R)
    (rd : read_result) (rds : list read_result) :
  reader_contract rd ->
  exists f,
    calls (new_featureset extent q_bbox q_filter_factor) (rd :: rds)
    = Val (Some f :: repeat None (List.length rds),
           mk_featureset 2 extent q_bbox q_filter_factor true)
    /\ id_ f = 1.
Proof.
  intros Hrd.
  destruct (next_ready (new_featureset extent q_bbox q_filter_factor) rd)
    as (f & log & Hnext & Hid & _); [reflexivity | exact Hrd |].
  exists f. split; [| exact Hid].
  cbn [calls]. rewrite Hnext. cbn [obind fst snd].
  rewrite calls_done by reflexivity. reflexivity.
Qed.

Lemma calls_from_construction_witness :
  exists f,
    calls (new_featureset world world 1)
      [Raise other_exception; Val (any_rgba8 (flat_tile 0)); Val any_other]
    = Val (Some f :: repeat None 2, mk_featureset 2 world world 1 true)
    /\ id_ f = 1.
Proof.
  apply (calls_from_construction world world 1 (Raise other_exception)
           [Val (any_rgba8 (flat_tile 0)); Val any_other]).
  exact I.
Defined.

(** X17: when the reader returns a 516 x 516 rgba8 image to a producer that
    is Ready, [next] returns a feature whose raster holds the hillshade of that
    image (not the blue ramp), with [extent_] as both of its extents and
    [filter_factor_] as its filter factor; nothing is logged, and the query's
    bounding box [bbox_] does not enter the result. *)
Theorem next_success (fs : terrarium_featureset) (img : image_rgba8) :
  done fs = false -> tile516 img ->
  exists out,
    process_hillshade img (new_image 512 512) = Some out
    /\ image512 out
    /\ next fs (Val (any_rgba8 img))
       = Val (Some (mk_feature (feature_id_ fs)
                      (Some (mk_raster (extent_ fs) (extent_ fs) out (filter_factor_ fs)))),
              mk_featureset (feature_id_ fs + 1) (extent_ fs) (bbox_ fs)
                (filter_factor_ fs) true,
              []).
Proof.
  intros Hready Htile.
  destruct (process_hillshade_spec img (new_image 512 512) Htile new_image_512)
    as (out & Hout & Himg & _).
  exists out. split; [exact Hout |]. split; [exact Himg |].
  unfold next. rewrite Hready. unfold next_try.
  cbn [obind get_rgba8 extent_ filter_factor_ feature_id_ bbox_].
  rewrite Hout. reflexivity.
Qed.

Lemma next_success_witness :
  exists out,
    process_hillshade (flat_tile 0) (new_image 512 512) = Some out
    /\ image512 out
    /\ next (new_featureset world world 1) (Val (any_rgba8 (flat_tile 0)))
       = Val (Some (mk_feature 1 (Some (mk_raster world world out 1))),
              mk_featureset (1 + 1) world world 1 true,
              []).
Proof.
  apply (next_success (new_featureset world world 1) (flat_tile 0)).
  - reflexivity.
  - apply flat_tile_516.
Defined.

(** X18: a failed read is logged once, by the first [catch] clause that takes
    the exception: an image reader exception gets the image-reader line (never
    the plain [std::exception] line, although it is one), another
    [std::exception] gets "Terrarium: " and its text, anything else gets
    "Terrarium: exception caught"; the feature returned is the same in all
    three cases. *)
Theorem next_logs_by_exception_class (fs : terrarium_featureset) (what : String.string) :
  done fs = false ->
  let f := Some (mk_feature (feature_id_ fs) None) in
  let fs' := mk_featureset (feature_id_ fs + 1) (extent_ fs) (bbox_ fs)
               (filter_factor_ fs) true in
  next fs (Raise (image_reader_exception what))
  = Val (f, fs', [String.append "Terrarium: image reader exception caught: " what])
  /\ next fs (Raise (std_exception what))
     = Val (f, fs', [String.append "Terrarium: " what])
  /\ next fs (Raise other_exception)
     = Val (f, fs', ["Terrarium: exception caught"%string]).
Proof.
  intros Hready f fs'. subst f fs'. unfold next. rewrite Hready.
  repeat split.
Qed.

Lemma next_logs_by_exception_class_witness :
  let f := Some (mk_feature 1 None) in
  let fs' := mk_featureset (1 + 1) world world 1 true in
  next (new_featureset world world 1) (Raise (image_reader_exception "short read"))
  = Val (f, fs', [String.append "Terrarium: image reader exception caught: " "short read"])
  /\ next (new_featureset world world 1) (Raise (std_exception "short read"))
     = Val (f, fs', [String.append "Terrarium: " "short read"])
  /\ next (new_featureset world world 1) (Raise other_exception)
     = Val (f, fs', ["Terrarium: exception caught"%string]).
Proof.
  apply (next_logs_by_exception_class (new_featureset world world 1) "short read").
  reflexivity.
Defined.
